(** * Redwood: the Apollo provider of [@redwoodjs/web] and the
    [create-redwood-app] scaffolder

    A shallow embedding of the two source files and the properties their
    specification states about them.

    - [Module Provider] embeds [ApolloProviderWithFetchConfig]: a
      configuration object is a finite map from property names to values, a
      header object the list of its properties in insertion order (the HTTP
      link reads it in that order), an Apollo link is its request handler (a
      function of the operation and of the [forward] continuation), a promise
      is its settled outcome.
    - [Module Scaffolder] embeds [create-redwood-app.js]: the script runs in
      a monad that threads the outside world (file system, subprocesses) and
      a trace of observable events, and that can raise or leave the process
      through [process.exit]. *)

From Stdlib Require Import String Ascii List ZArith Bool Lia Sorted.
From stdpp Require Import base option gmap strings list.

Local Open Scope string_scope.
Local Open Scope list_scope.

(* ===================================================================== *)
(** * The GraphQL provider *)
(* ===================================================================== *)

Module Provider.

(** ** Promises, tokens and headers *)

(** An awaited promise either resolves with a value or rejects. *)
Inductive Promise (A : Type) : Type :=
| Resolved (a : A)
| Rejected (reason : string).
Arguments Resolved {A} a.
Arguments Rejected {A} reason.

(** [getToken] resolves to [null | string]. *)
Inductive Token : Type :=
| TNull
| TString (s : string).

(** JavaScript truthiness of a token: [null] and the empty string are
    falsy. *)
Definition truthy_token (t : Token) : bool :=
  match t with
  | TNull => false
  | TString s => negb (String.eqb s "")
  end.

(** The [token] of a context, which is [undefined] until a link sets it. *)
Definition truthy_context_token (t : option Token) : bool :=
  match t with
  | Some t => truthy_token t
  | None => false
  end.

(** How a template literal renders the token. *)
Definition token_text (t : option Token) : string :=
  match t with
  | Some (TString s) => s
  | Some TNull => "null"
  | None => "undefined"
  end.

(** Object spread [{...a, ...b}] where the order of the properties does not
    matter: the properties of [b] win. *)
Definition spread {V : Type} (a b : gmap string V) : gmap string V := b ∪ a.

(** ** Header objects

    The HTTP link reads a header object property by property, in insertion
    order, so a header object is the list of its own properties in that
    order. *)
Abbreviation HeaderObject := (list (string * string)).

(** [o[k] = v]: an existing property keeps its place, a new one goes last. *)
Fixpoint obj_set (k v : string) (o : HeaderObject) : HeaderObject :=
  match o with
  | [] => [(k, v)]
  | (k', v') :: o' =>
      if String.eqb k' k then (k, v) :: o' else (k', v') :: obj_set k v o'
  end.

(** [{...a, ...b}] *)
Definition obj_spread (a b : HeaderObject) : HeaderObject :=
  fold_left (fun o e => obj_set (fst e) (snd e) o) b a.

(** [name.toLowerCase()] for a header name (an HTTP token, so ASCII). *)
Definition lower_ascii (c : ascii) : ascii :=
  let n := nat_of_ascii c in
  if (65 <=? n)%nat && (n <=? 90)%nat then ascii_of_nat (n + 32) else c.

Fixpoint toLowerCase (s : string) : string :=
  match s with
  | EmptyString => EmptyString
  | String c s' => String (lower_ascii c) (toLowerCase s')
  end.

(** [headersToLowerCase] of the HTTP link:
    [Object.keys(headers).forEach(name =>
       normalized[name.toLowerCase()] = headers[name])].
    The result, the headers of a request, is a map from lower-cased names. *)
Definition headersToLowerCase (o : HeaderObject) : gmap string string :=
  fold_left (fun m e => <[toLowerCase (fst e) := snd e]> m) o ∅.

(** What [useAuth()] hands to the provider (the fields it reads). *)
Record AuthContext : Type := {
  isAuthenticated : bool;
  getToken : option (unit -> Promise Token);
  type : string
}.

(** What [useFetchConfig()] hands to the provider; [headers] may be
    [undefined]. *)
Record FetchConfig : Type := {
  headers : option HeaderObject;
  uri : string
}.

(** ** Operations and links *)

(** [context.clientAwareness], which Apollo Client fills from its [name] and
    [version] options. *)
Record ClientAwareness : Type := {
  ca_name : option string;
  ca_version : option string
}.

(** The context of an operation: what the links of this file and the HTTP
    link read and write; [None] is [undefined]. [credentials], [fetchOptions]
    and [http] are handed to the fetch call as they are. *)
Record Context : Type := {
  ctx_token : option Token;
  ctx_headers : option HeaderObject;
  ctx_uri : option string;
  ctx_clientAwareness : option ClientAwareness;
  ctx_credentials : option string;
  ctx_fetchOptions : option string;
  ctx_http : option string
}.

(** [{ ...context, token }] and [{ ...context, headers }] *)
Definition with_token (c : Context) (token : Token) : Context :=
  {| ctx_token := Some token;
     ctx_headers := ctx_headers c;
     ctx_uri := ctx_uri c;
     ctx_clientAwareness := ctx_clientAwareness c;
     ctx_credentials := ctx_credentials c;
     ctx_fetchOptions := ctx_fetchOptions c;
     ctx_http := ctx_http c |}.

Definition with_headers (c : Context) (h : HeaderObject) : Context :=
  {| ctx_token := ctx_token c;
     ctx_headers := Some h;
     ctx_uri := ctx_uri c;
     ctx_clientAwareness := ctx_clientAwareness c;
     ctx_credentials := ctx_credentials c;
     ctx_fetchOptions := ctx_fetchOptions c;
     ctx_http := ctx_http c |}.

(** The context of an operation nobody has touched. *)
Definition emptyContext : Context :=
  {| ctx_token := None; ctx_headers := None; ctx_uri := None;
     ctx_clientAwareness := None; ctx_credentials := None;
     ctx_fetchOptions := None; ctx_http := None |}.

Record Operation : Type := {
  operationName : string;
  context : Context
}.

(** The fetch call a terminating link issues. Header names do not depend on
    letter case in HTTP: the headers are recorded under their lower-cased
    names. *)
Record Request : Type := {
  req_uri : string;
  req_headers : gmap string string;
  req_credentials : option string;
  req_fetchOptions : option string;
  req_http : option string
}.

(** What becomes of an operation handed to a link chain. *)
Inductive Outcome : Type :=
| Sent (r : Request)
| Failed (reason : string).

(** An Apollo link is its request handler [(operation, forward) => ...]. *)
Definition ApolloLink : Type := Operation -> (Operation -> Outcome) -> Outcome.

(** [first.concat(second)]. *)
Definition concat (first second : ApolloLink) : ApolloLink :=
  fun operation forward => first operation (fun op => second op forward).

(** [ApolloLink.empty()]. *)
Definition empty_link : ApolloLink :=
  fun _ _ => Failed "no terminating link".

(** [ApolloLink.from(links)]: [links.reduce((x, y) => x.concat(y))]. *)
Definition from (links : list ApolloLink) : ApolloLink :=
  match links with
  | [] => empty_link
  | l :: ls => fold_left concat ls l
  end.

(** [execute(link, operation)]: the chain is entered without a [forward]. *)
Definition execute (link : ApolloLink) (operation : Operation) : Outcome :=
  link operation (fun _ => Failed "no terminating link").

(** [setContext(setter)] of [@apollo/client/link/context]: awaits the setter,
    merges the object it resolves to into the context, then forwards; a
    rejection fails the operation. The only setter of this file returns an
    object with the single key [token]. *)
Definition setContext (setter : Context -> Promise Token) : ApolloLink :=
  fun operation forward =>
    match setter (context operation) with
    | Resolved token =>
        forward {| operationName := operationName operation;
                   context := with_token (context operation) token |}
    | Rejected reason => Failed reason
    end.

(** The fallback headers of the HTTP link. *)
Definition fallbackHttpHeaders : gmap string string :=
  {[ "accept" := "*/*"; "content-type" := "application/json" ]}.

(** The headers the HTTP link derives from [context.clientAwareness]; an
    empty name or version is falsy. *)
Definition clientAwarenessHeaders (ca : option ClientAwareness) : HeaderObject :=
  match ca with
  | None => []
  | Some ca =>
      (match ca_name ca with
       | Some name =>
           if String.eqb name "" then [] else [("apollographql-client-name", name)]
       | None => []
       end)
      ++ (match ca_version ca with
          | Some version =>
              if String.eqb version "" then []
              else [("apollographql-client-version", version)]
          | None => []
          end)
  end.

(** [selectURI]: [context.uri || uri || '/graphql']. *)
Definition selectURI (contextUri : option string) (uri : string) : string :=
  match contextUri with
  | Some u => if String.eqb u "" then (if String.eqb uri "" then "/graphql" else uri) else u
  | None => if String.eqb uri "" then "/graphql" else uri
  end.

(** [new HttpLink({ uri })] (as of [@apollo/client] 3.4): terminating. The
    headers of the context are spread over the client-awareness headers,
    their names are lower-cased, property by property, and the result is
    spread over the fallback headers. *)
Definition HttpLink (uri : string) : ApolloLink :=
  fun operation _ =>
    let c := context operation in
    let contextHeaders :=
      obj_spread (clientAwarenessHeaders (ctx_clientAwareness c))
                 (default [] (ctx_headers c)) in
    Sent {| req_uri := selectURI (ctx_uri c) uri;
            req_headers := spread fallbackHttpHeaders (headersToLowerCase contextHeaders);
            req_credentials := ctx_credentials c;
            req_fetchOptions := ctx_fetchOptions c;
            req_http := ctx_http c |}.

(** [headersToLowerCase] from a given [normalized] object. *)
Definition lowerInto (m : gmap string string) (o : HeaderObject) : gmap string string :=
  fold_left (fun m e => <[toLowerCase (fst e) := snd e]> m) o m.

(** The properties of a header object whose name is [n] up to letter case,
    in order. *)
Definition named (n : string) (o : HeaderObject) : HeaderObject :=
  List.filter (fun e => String.eqb (toLowerCase (fst e)) n) o.

(** A header object that names each header once: no two property names
    differ only in letter case. *)
Definition caseDistinct (o : HeaderObject) : Prop :=
  NoDup (map (fun e => toLowerCase (fst e)) o).

(** ** The links of [ApolloProviderWithFetchConfig] *)

Section Links.
Variable auth : AuthContext.
Variable fetchConfig : FetchConfig.

(** The async function given to [setContext]:
    [if (isAuthenticated && getToken) { return { token: await getToken() } }
     return { token: null }]. *)
Definition tokenSetter : Context -> Promise Token :=
  fun _ =>
    if isAuthenticated auth then
      match getToken auth with
      | Some getter => getter tt
      | None => Resolved TNull
      end
    else Resolved TNull.

Definition withToken : ApolloLink := setContext tokenSetter.

(** [token ? { 'auth-provider': type, authorization: `Bearer ${token}` } : {}] *)
Definition authHeaders (token : option Token) : HeaderObject :=
  if truthy_context_token token
  then [ ("auth-provider", type auth);
         ("authorization", "Bearer " +:+ token_text token) ]
  else [].

(** [operation.setContext(() => ({ headers: { ...headers, ...authHeaders } }))] *)
Definition authMiddleware : ApolloLink :=
  fun operation forward =>
    let token := ctx_token (context operation) in
    forward {| operationName := operationName operation;
               context :=
                 with_headers (context operation)
                   (obj_spread (default [] (headers fetchConfig))
                               (authHeaders token)) |}.

Definition httpLink : ApolloLink := HttpLink (uri fetchConfig).

Definition rwLink : ApolloLink := from [withToken; authMiddleware; httpLink].

(** The token the context holds once [withToken] has run. *)
Definition resolvedToken : Promise Token := tokenSetter emptyContext.
End Links.

(** ** Client options *)

(** The JavaScript values a configuration object may hold. *)
#[warnings="-register-all"]
Inductive Value : Type :=
| VUndefined
| VNull
| VBool (b : bool)
| VNum (n : Z)
| VStr (s : string)
| VObj (o : gmap string Value)
| VLink (l : ApolloLink)
| VLinkFn (f : ApolloLink -> ApolloLink)
| VInMemoryCache (cacheConfig : Value).

Definition truthy (v : Value) : bool :=
  match v with
  | VUndefined | VNull => false
  | VBool b => b
  | VNum n => negb (Z.eqb n 0)
  | VStr s => negb (String.eqb s "")
  | VObj _ | VLink _ | VLinkFn _ | VInMemoryCache _ => true
  end.

(** Reading a property: a missing one is [undefined]. *)
Definition prop (o : gmap string Value) (k : string) : Value :=
  default VUndefined (o !! k).

(** The [defaultOptions] the provider passes. *)
Definition defaultOptions : Value :=
  VObj {[ "watchQuery" :=
            VObj {[ "fetchPolicy" := VStr "cache-and-network";
                    "notifyOnNetworkStatusChange" := VBool true ]} ]}.

Section Client.
Variable auth : AuthContext.
Variable fetchConfig : FetchConfig.

(** [let link = rwLink; if (userLink) { link = typeof userLink ===
    'function' ? userLink(rwLink) : (link = userLink) }] *)
Definition chooseLink (userLink : Value) : Value :=
  if truthy userLink then
    match userLink with
    | VLinkFn f => VLink (f (rwLink auth fetchConfig))
    | _ => userLink
    end
  else VLink (rwLink auth fetchConfig).

(** The object handed to [new ApolloClient(...)]; [config] is [None] when
    the prop is not given. *)
Definition clientOptions (config : option (gmap string Value)) : gmap string Value :=
  let config := default ∅ config in
  let userLink := prop config "link" in
  let cacheConfig := prop config "cacheConfig" in
  let rest := delete "cacheConfig" (delete "link" config) in
  let link := chooseLink userLink in
  spread
    (<["link" := link]>
       (<["cache" := VInMemoryCache cacheConfig]>
          (<["defaultOptions" := defaultOptions]> ∅)))
    rest.
End Client.

(** ** Sample inputs *)

Module Samples.
(** Signed in, and the token getter resolves to a token. *)
Definition signedIn : AuthContext :=
  {| isAuthenticated := true;
     getToken := Some (fun _ => Resolved (TString "t0k3n"));
     type := "netlify" |}.

(** Signed in, but the getter resolves to [null]. *)
Definition expired : AuthContext :=
  {| isAuthenticated := true;
     getToken := Some (fun _ => Resolved TNull);
     type := "netlify" |}.

(** Not signed in. *)
Definition anonymous : AuthContext :=
  {| isAuthenticated := false;
     getToken := Some (fun _ => Resolved (TString "t0k3n"));
     type := "netlify" |}.

(** A fetch configuration without headers. *)
Definition plainFetch : FetchConfig :=
  {| headers := None; uri := "/.redwood/functions/graphql" |}.

(** A fetch configuration that already names the auth provider. *)
Definition labelledFetch : FetchConfig :=
  {| headers := Some [("auth-provider", "netlify")];
     uri := "/.redwood/functions/graphql" |}.

Definition query : Operation :=
  {| operationName := "FindPosts"; context := emptyContext |}.

(** A user link object, and a user function that puts it in front of the
    link it is given. *)
Definition userLink : ApolloLink :=
  fun operation forward => forward operation.

Definition wrapLink (rw : ApolloLink) : ApolloLink := concat userLink rw.

Definition configPlain : gmap string Value :=
  {[ "uri" := VStr "/graphql";
     "name" := VStr "web";
     "cacheConfig" := VObj {[ "addTypename" := VBool false ]} ]}.

Definition configWithLink : gmap string Value :=
  {[ "link" := VLink userLink ]}.

Definition configWithLinkFn : gmap string Value :=
  {[ "link" := VLinkFn wrapLink ]}.

(** Not signed in, with a getter that would reject. *)
Definition signedOutBroken : AuthContext :=
  {| isAuthenticated := false;
     getToken := Some (fun _ => Rejected "network down");
     type := "netlify" |}.

(** A fetch configuration with headers of its own, in mixed case. *)
Definition tracedFetch : FetchConfig :=
  {| headers := Some [("X-Trace", "on"); ("Content-Type", "text/plain")];
     uri := "/.redwood/functions/graphql" |}.

(** A fetch configuration that names one header twice, in two cases. *)
Definition twiceNamedFetch : FetchConfig :=
  {| headers := Some [("authorization", "Bearer old"); ("Authorization", "Bearer older")];
     uri := "/.redwood/functions/graphql" |}.

(** An operation whose caller put a token and headers in its context. *)
Definition queryWithContext : Operation :=
  {| operationName := "FindPosts";
     context := with_headers (with_token emptyContext (TString "forged"))
                  [("authorization", "Bearer forged")] |}.

(** Outside the declared type: a configuration with a [cache] property. *)
Definition configWithCache : gmap string Value :=
  {[ "cache" := VStr "custom cache";
     "cacheConfig" := VObj {[ "addTypename" := VBool false ]} ]}.

Definition configWithNullLink : gmap string Value :=
  {[ "link" := VNull ]}.
End Samples.

End Provider.

(* ===================================================================== *)
(** * The scaffolder *)
(* ===================================================================== *)

Module Scaffolder.

(** ** Strings *)

(** The line feed of the template literals. *)
Definition nl : string := String (ascii_of_nat 10) EmptyString.

(** [String(array)]: the elements joined by commas. An element is given by
    its own [String(...)] image (yargs yields strings and numbers). *)
Definition array_toString (xs : list string) : string := String.concat "," xs.

(** [s.replace(/,/g, '-')]. *)
Fixpoint replace_commas (s : string) : string :=
  match s with
  | EmptyString => EmptyString
  | String c s' =>
      String (if Ascii.eqb c "," then "-"%char else c) (replace_commas s')
  end.

(** [const targetDir = String(args).replace(/,/g, '-')] *)
Definition targetDir (args : list string) : string :=
  replace_commas (array_toString args).

(** ** Command line, errors, events *)

(** What yargs parses: the positional arguments and the three flags. *)
Record Argv : Type := {
  args : list string;
  yarnInstall : bool;
  typescript : bool;
  overwrite : bool
}.

(** A JavaScript [Error]. *)
Record Error : Type := mkError { message : string }.

(** Calls that reach outside the process from inside a task. *)
Inductive SysCall : Type :=
| Require (file : string)
| CheckNodeVersion
| ReaddirSync (dir : string)
| EnsureDirSync (dir : string)
| CopySync (src dest : string) (overwrite : bool)
| Rename (oldPath newPath : string)
| Execa (command cwd : string).

(** What a run lets an observer see, in order. *)
Inductive Event : Type :=
| ConsoleLog (line : string)
| ConsoleLogError (e : Error)
| ConsoleError (line : string)
| TaskPending (title : string)
| TaskSkipped (title : string) (output : option string)
| TaskCompleted (title : string)
| TaskFailed (title : string) (e : Error)
| Called (c : SysCall).

(** ** The result of [check-node-version] *)

Record VersionInfo : Type := {
  vi_isSatisfied : bool;
  version : string;   (* as the template literal renders it *)
  wanted : string
}.

(** [versions] lists the properties in [Object.keys] order. *)
Record VersionResult : Type := {
  isSatisfied : bool;
  versions : list (string * VersionInfo)
}.

(** ** The outside world *)

(** [chalk] styles: each maps a string to a decorated string. *)
Record Style : Type := {
  style_error : string -> string;
  style_warning : string -> string;
  style_success : string -> string;
  style_info : string -> string;
  style_header : string -> string;
  style_cmd : string -> string;
  style_redwood : string -> string;
  style_love : string -> string;
  style_green : string -> string;
  chalk_cyan : string -> string;
  chalk_green : string -> string
}.

(** The libraries and the process environment the script runs against.
    [World] is the state of everything outside the process. A call that can
    throw returns the error beside the world it leaves behind. [rename] is
    not awaited by the script: its failure reaches no task.
    [checkNodeVersion] stands for the result handed to the callback, whose
    [_error] argument the script ignores. *)
Record Sys (World : Type) : Type := {
  style : Style;
  cwd : string;
  dirname : string;
  path_resolve : string -> string -> string;
  path_join : string -> string -> string;
  path_dirname : string -> string;
  existsSync : World -> string -> bool;
  readdirSync : World -> string -> Error + list string;
  ensureDirSync : World -> string -> World * option Error;
  copySync : World -> string -> string -> bool -> World * option Error;
  rename : World -> string -> string -> World;
  execa : World -> string -> string -> World * option Error;
  require_engines : World -> string -> Error + list (string * string);
  checkNodeVersion : World -> list (string * string) -> VersionResult
}.
Arguments style {World}.
Arguments cwd {World}.
Arguments dirname {World}.
Arguments path_resolve {World}.
Arguments path_join {World}.
Arguments path_dirname {World}.
Arguments existsSync {World}.
Arguments readdirSync {World}.
Arguments ensureDirSync {World}.
Arguments copySync {World}.
Arguments rename {World}.
Arguments execa {World}.
Arguments require_engines {World}.
Arguments checkNodeVersion {World}.

(** ** The monad of the script *)

(** A computation returns, throws (or rejects), or ends the process. *)
Inductive Result (A : Type) : Type :=
| Ret (a : A)
| Throw (e : Error)
| Exit (code : Z).
Arguments Ret {A} a.
Arguments Throw {A} e.
Arguments Exit {A} code.

Record Run (World A : Type) : Type := mkRun {
  final : World;
  events : list Event;
  result : Result A
}.
Arguments mkRun {World A}.
Arguments final {World A}.
Arguments events {World A}.
Arguments result {World A}.

Definition M (World A : Type) : Type := World -> Run World A.

Section Monad.
Context {World : Type}.

Definition ret {A} (a : A) : M World A := fun w => mkRun w [] (Ret a).

Definition bind {A B} (m : M World A) (f : A -> M World B) : M World B :=
  fun w =>
    match m w with
    | mkRun w1 ev1 (Ret a) =>
        match f a w1 with
        | mkRun w2 ev2 r => mkRun w2 (ev1 ++ ev2) r
        end
    | mkRun w1 ev1 (Throw e) => mkRun w1 ev1 (Throw e)
    | mkRun w1 ev1 (Exit c) => mkRun w1 ev1 (Exit c)
    end.

Definition throw {A} (e : Error) : M World A := fun w => mkRun w [] (Throw e).

(** [process.exit(code)] *)
Definition process_exit {A} (code : Z) : M World A := fun w => mkRun w [] (Exit code).

Definition emit (e : Event) : M World unit := fun w => mkRun w [e] (Ret tt).

(** [try { m } catch (e) { handler(e) }], and [promise.catch(handler)]. *)
Definition try_catch {A} (m : M World A) (handler : Error -> M World A) : M World A :=
  fun w =>
    match m w with
    | mkRun w1 ev1 (Throw e) =>
        match handler e w1 with
        | mkRun w2 ev2 r => mkRun w2 (ev1 ++ ev2) r
        end
    | r => r
    end.

(** A query of the world. *)
Definition ask {A} (q : World -> A) : M World A := fun w => mkRun w [] (Ret (q w)).

(** A call that reads the world and may throw. *)
Definition call_read {A} (c : SysCall) (f : World -> Error + A) : M World A :=
  fun w =>
    match f w with
    | inl e => mkRun w [Called c] (Throw e)
    | inr a => mkRun w [Called c] (Ret a)
    end.

(** A call that changes the world and may throw. *)
Definition call_write (c : SysCall) (f : World -> World * option Error) : M World unit :=
  fun w =>
    match f w with
    | (w', Some e) => mkRun w' [Called c] (Throw e)
    | (w', None) => mkRun w' [Called c] (Ret tt)
    end.

(** A call whose outcome is not awaited. *)
Definition call_detached (c : SysCall) (f : World -> World) : M World unit :=
  fun w => mkRun (f w) [Called c] (Ret tt).
End Monad.

Notation "x <- m ;;; k" := (bind m (fun x => k))
  (at level 20, m at level 99, k at level 200, only parsing).
Notation "m ;;; k" := (bind m (fun _ => k))
  (at level 100, k at level 200, right associativity, only parsing).

(** ** Listr *)

(** What a [skip] function returns. *)
Inductive SkipValue : Type :=
| SkipUndefined
| SkipBool (b : bool)
| SkipString (s : string).

Definition truthy_skip (v : SkipValue) : bool :=
  match v with
  | SkipUndefined => false
  | SkipBool b => b
  | SkipString s => negb (String.eqb s "")
  end.

(** [if (typeof skipped === 'string') this.output = skipped] *)
Definition skip_output (v : SkipValue) : option string :=
  match v with
  | SkipString s => Some s
  | _ => None
  end.

(** A task object; [enabled] and [skip] are optional. *)
Record Task (A : Type) : Type := {
  title : string;
  enabled : option (unit -> bool);
  skip : option (unit -> SkipValue);
  task : A
}.
Arguments title {A}.
Arguments enabled {A}.
Arguments skip {A}.
Arguments task {A}.

Definition isEnabled {A} (t : Task A) : bool :=
  match enabled t with
  | Some f => f tt
  | None => true
  end.

Definition skipValue {A} (t : Task A) : SkipValue :=
  match skip t with
  | Some f => f tt
  | None => SkipBool false
  end.

(** What a task function of this script returns: a promise (or nothing), or
    a nested [Listr]. *)
Inductive Action (World : Type) : Type :=
| Work (m : M World unit)
| SubList (tasks : list (Task (M World unit))).
Arguments Work {World} m.
Arguments SubList {World} tasks.

Section Listr.
Context {World : Type}.

(** One task of a list run with [exitOnError: true]: a disabled task is
    passed over; otherwise the task is pending, then skipped when [skip]
    returns a truthy value, else run; a failure marks the task failed and
    is thrown again. *)
Definition run_task {A} (exec : A -> M World unit) (t : Task A) : M World unit :=
  if isEnabled t then
    emit (TaskPending (title t)) ;;;
    if truthy_skip (skipValue t) then
      emit (TaskSkipped (title t) (skip_output (skipValue t)))
    else
      try_catch (exec (task t))
                (fun e => emit (TaskFailed (title t) e) ;;; throw e) ;;;
      emit (TaskCompleted (title t))
  else ret tt.

(** [new Listr(tasks).run()]: the tasks one after the other. *)
Fixpoint run_list {A} (exec : A -> M World unit) (ts : list (Task A)) : M World unit :=
  match ts with
  | [] => ret tt
  | t :: ts' => run_task exec t ;;; run_list exec ts'
  end.

Definition exec_work (m : M World unit) : M World unit := m.

Definition exec_action (a : Action World) : M World unit :=
  match a with
  | Work m => m
  | SubList ts => run_list exec_work ts
  end.
End Listr.

(** ** The script *)

Section Script.
Context {World : Type}.
Variable sys : Sys World.
Variable argv : Argv.

Let st : Style := style sys.

(** [path.resolve(__dirname, '../template')] *)
Definition templateDir : string := path_resolve sys (dirname sys) "../template".

(** The statements of the version error: one per unsatisfied dependency,
    then the two closing lines. *)
Definition versionStatement (entry : string * VersionInfo) : string :=
  style_error st
    (fst entry +:+ " " +:+ wanted (snd entry) +:+ " required, but you have "
       +:+ version (snd entry)).

Definition unsatisfied (entry : string * VersionInfo) : bool :=
  negb (vi_isSatisfied (snd entry)).

Definition logStatements (r : VersionResult) : list string :=
  map versionStatement (List.filter unsatisfied (versions r))
    ++ [ style_header st (nl +:+ "Visit requirements documentation:");
         style_warning st
           ("https://learn.redwoodjs.com/docs/tutorial/prerequisites/#nodejs-and-yarn-versions"
              +:+ nl) ].

Definition versionError (r : VersionResult) : Error :=
  mkError (String.concat nl (logStatements r)).

(** The task function of 'Checking node and yarn compatibility', for a
    callback that is handed a result (the script ignores [_error]). *)
Definition checkVersions : M World unit :=
  engines <- call_read (Require (path_join sys templateDir "package.json"))
               (fun w => require_engines sys w (path_join sys templateDir "package.json")) ;;;
  result <- call_read CheckNodeVersion
               (fun w => inr (checkNodeVersion sys w engines)) ;;;
  if isSatisfied result then ret tt else throw (versionError result).

Definition notEmptyMessage (newAppDir : string) : string :=
  style_error st (nl +:+ "'" +:+ newAppDir +:+ "' already exists and is not empty" +:+ nl).

(** The task function of the directory task. The promise of [fs.rename] is
    neither awaited nor returned: the task goes on whatever becomes of it, and
    what Node does with a rejection nobody handles is outside this model. *)
Definition copyTemplate (appDirExists : bool) (newAppDir : string) (overwrite : bool)
  : M World unit :=
  (if appDirExists && negb overwrite then
     entries <- call_read (ReaddirSync newAppDir)
                  (fun w => readdirSync sys w newAppDir) ;;;
     if (0 <? length entries)%nat then
       emit (ConsoleError (notEmptyMessage newAppDir)) ;;;
       process_exit 1
     else ret tt
   else
     call_write (EnsureDirSync (path_dirname sys newAppDir))
       (fun w => ensureDirSync sys w (path_dirname sys newAppDir))) ;;;
  call_write (CopySync templateDir newAppDir overwrite)
    (fun w => copySync sys w templateDir newAppDir overwrite) ;;;
  call_detached (Rename (path_join sys newAppDir "gitignore.template")
                        (path_join sys newAppDir ".gitignore"))
    (fun w => rename sys w (path_join sys newAppDir "gitignore.template")
                         (path_join sys newAppDir ".gitignore")).

Definition directoryTitle (appDirExists : bool) (newAppDir : string) : string :=
  (if appDirExists then "Using" else "Creating") +:+ " directory '" +:+ newAppDir +:+ "'".

Definition createProjectTasks (appDirExists : bool) (newAppDir : string) (overwrite : bool)
  : list (Task (M World unit)) :=
  [ {| title := "Checking node and yarn compatibility";
       enabled := None;
       skip := Some (fun _ =>
                 if negb (yarnInstall argv)
                 then SkipString "Warning: skipping check on request"
                 else SkipUndefined);
       task := checkVersions |};
    {| title := directoryTitle appDirExists newAppDir;
       enabled := None;
       skip := None;
       task := copyTemplate appDirExists newAppDir overwrite |} ].

Definition execaTask (command newAppDir : string) : M World unit :=
  call_write (Execa command newAppDir) (fun w => execa sys w command newAppDir).

Definition installNodeModulesTasks (newAppDir : string) : list (Task (M World unit)) :=
  [ {| title := "Running 'yarn install'... (This could take a while)";
       enabled := None;
       skip := Some (fun _ =>
                 if negb (yarnInstall argv)
                 then SkipString "skipped on request"
                 else SkipUndefined);
       task := execaTask "yarn install" newAppDir |} ].

(** The tasks of the top-level [Listr]. *)
Definition mainTasks (appDirExists : bool) (newAppDir : string) : list (Task (Action World)) :=
  [ {| title := "Creating Redwood app";
       enabled := None;
       skip := None;
       task := SubList (createProjectTasks appDirExists newAppDir (overwrite argv)) |};
    {| title := "Installing packages";
       enabled := None;
       skip := None;
       task := SubList (installNodeModulesTasks newAppDir) |};
    {| title := "Convert TypeScript files to JavaScript";
       enabled := Some (fun _ => negb (typescript argv) && yarnInstall argv);
       skip := None;
       task := Work (execaTask "yarn rw ts-to-js" newAppDir) |};
    {| title := "Generating types";
       enabled := None;
       skip := Some (fun _ => SkipBool (negb (yarnInstall argv)));
       task := Work (execaTask "yarn rw-gen" newAppDir) |} ].

(** The lines printed when every task has completed. *)
Definition successLines (targetDir : string) : list string :=
  [ "";
    style_success st "Thanks for trying out Redwood!";
    "";
    " ⚡️ " +:+ style_redwood st "Get up and running fast with this Quick Start guide"
      +:+ ": https://redwoodjs.com/docs/quick-start";
    "";
    style_header st "Join the Community";
    "";
    style_redwood st " ❖ Join our Forums" +:+ ": https://community.redwoodjs.com";
    style_redwood st " ❖ Join our Chat" +:+ ": https://discord.gg/redwoodjs";
    "";
    style_header st "Get some help";
    "";
    style_redwood st " ❖ Get started with the Tutorial" +:+ ": https://redwoodjs.com/tutorial";
    style_redwood st " ❖ Read the Documentation" +:+ ": https://redwoodjs.com/docs";
    "";
    style_header st "Stay updated";
    "";
    style_redwood st " ❖ Sign up for our Newsletter" +:+ ": https://www.redwoodjs.com/newsletter";
    style_redwood st " ❖ Follow us on Twitter" +:+ ": https://twitter.com/redwoodjs";
    "";
    style_header st "Become a Contributor" +:+ " " +:+ style_love st "❤";
    "";
    style_redwood st " ❖ Learn how to get started" +:+ ": https://redwoodjs.com/docs/contributing";
    style_redwood st " ❖ Find a Good First Issue" +:+ ": https://redwoodjs.com/good-first-issue";
    "";
    style_header st "Fire it up!" +:+ " 🚀";
    "";
    style_redwood st (" > " +:+ style_green st ("cd " +:+ targetDir));
    style_redwood st (" > " +:+ style_green st "yarn rw dev");
    "" ].

Fixpoint logLines (lines : list string) : M World unit :=
  match lines with
  | [] => ret tt
  | l :: ls => emit (ConsoleLog l) ;;; logLines ls
  end.

Definition createdWarning (newAppDir : string) : string :=
  style_warning st (nl +:+ "Warning: Directory ")
    +:+ style_cmd st ("'" +:+ newAppDir +:+ "' ")
    +:+ style_warning st
          ("was created. However, the installation could not complete due to an error."
             +:+ nl).

(** The [.catch] handler of the run. *)
Definition onError (newAppDir : string) (e : Error) : M World unit :=
  emit (ConsoleLog "") ;;;
  emit (ConsoleLogError e) ;;;
  stillThere <- ask (fun w => existsSync sys w newAppDir) ;;;
  (if stillThere : bool then emit (ConsoleLog (createdWarning newAppDir)) else ret tt) ;;;
  process_exit 1.

(** Everything after the check of [targetDir]. *)
Definition createApp (targetDir : string) : M World unit :=
  let newAppDir := path_resolve sys (cwd sys) targetDir in
  appDirExists <- ask (fun w => existsSync sys w newAppDir) ;;;
  try_catch
    (run_list exec_action (mainTasks appDirExists newAppDir) ;;;
     logLines (successLines targetDir))
    (onError newAppDir).

(** What is printed when no project directory is given. *)
Definition usage : M World unit :=
  emit (ConsoleError "Please specify the project directory") ;;;
  emit (ConsoleLog ("  " +:+ chalk_cyan st "yarn create redwood-app" +:+ " "
                      +:+ chalk_green st "<project-directory>")) ;;;
  emit (ConsoleLog "") ;;;
  emit (ConsoleLog "For example:") ;;;
  emit (ConsoleLog ("  " +:+ chalk_cyan st "yarn create redwood-app" +:+ " "
                      +:+ chalk_green st "my-redwood-app")).

(** The whole script. *)
Definition main : M World unit :=
  if String.eqb (targetDir (args argv)) "" then
    usage ;;; process_exit 1
  else createApp (targetDir (args argv)).
End Script.

(** The exit code of the process: an uncaught exception gives 1. *)
Definition exitCode {A} (r : Result A) : Z :=
  match r with
  | Ret _ => 0
  | Throw _ => 1
  | Exit code => code
  end.

(** ** Reading a trace *)

(** Task states and outside calls, as opposed to console output. *)
Definition taskActivity (ev : Event) : bool :=
  match ev with
  | ConsoleLog _ | ConsoleLogError _ | ConsoleError _ => false
  | _ => true
  end.

Definition isFailure (ev : Event) : bool :=
  match ev with
  | TaskFailed _ _ => true
  | _ => false
  end.

(** The titles of the tasks a run has entered, in order. *)
Fixpoint pendingTitles (evs : list Event) : list string :=
  match evs with
  | [] => []
  | TaskPending t :: evs' => t :: pendingTitles evs'
  | _ :: evs' => pendingTitles evs'
  end.

(** The events from the first failure mark on. *)
Fixpoint fromFirstFailure (evs : list Event) : list Event :=
  match evs with
  | [] => []
  | ev :: evs' => if isFailure ev then ev :: evs' else fromFirstFailure evs'
  end.

(** The five steps of the scaffolder, and the step an outside call belongs
    to. *)
Inductive Step : Type :=
| CheckVersions
| CopyTemplateFiles
| PackageInstall
| ConvertExtensions
| GenerateTypes.


Definition stepOfCall (c : SysCall) : option Step :=
  match c with
  | Require _ | CheckNodeVersion => Some CheckVersions
  | ReaddirSync _ | EnsureDirSync _ | CopySync _ _ _ | Rename _ _ => Some CopyTemplateFiles
  | Execa command _ =>
      if String.eqb command "yarn install" then Some PackageInstall
      else if String.eqb command "yarn rw ts-to-js" then Some ConvertExtensions
      else if String.eqb command "yarn rw-gen" then Some GenerateTypes
      else None
  end.










Fixpoint has_comma (s : string) : bool :=
  match s with
  | EmptyString => false
  | String c s' => Ascii.eqb c "," || has_comma s'
  end.

(** The outside calls of a trace, in order. *)
Fixpoint calls (evs : list Event) : list SysCall :=
  match evs with
  | [] => []
  | Called c :: evs' => c :: calls evs'
  | _ :: evs' => calls evs'
  end.


(** Whether a command was handed to [execa]. *)
Definition ran (command : string) (evs : list Event) : bool :=
  existsb (fun c => match c with
                    | Execa c' _ => String.eqb c' command
                    | _ => false
                    end) (calls evs).

(** What the console shows. *)
Definition consoleOutput (evs : list Event) : list Event :=
  List.filter (fun ev => negb (taskActivity ev)) evs.

(** An error on the console: a line on the error stream, or a logged
    [Error]. *)
Definition isErrorOutput (ev : Event) : bool :=
  match ev with
  | ConsoleError _ | ConsoleLogError _ => true
  | _ => false
  end.

(** ** A small world to run the script in *)

Module Toy.
(** No colours. *)
Definition plain : Style :=
  {| style_error := id; style_warning := id; style_success := id;
     style_info := id; style_header := id; style_cmd := id;
     style_redwood := id; style_love := id; style_green := id;
     chalk_cyan := id; chalk_green := id |}.

(** What is installed, and which commands fail. *)
Record Setup : Type := {
  installed : VersionResult;
  broken : list string
}.

Definition templateEntries : list string :=
  ["package.json"; "gitignore.template"; "api"; "web"].

(** The world is the directories that exist, each with its entries. *)
Definition sys (s : Setup) : Sys (gmap string (list string)) :=
  {| style := plain;
     cwd := "/home/dev";
     dirname := "/opt/create-redwood-app/dist";
     path_resolve := fun a b => a +:+ "/" +:+ b;
     path_join := fun a b => a +:+ "/" +:+ b;
     path_dirname := fun _ => "/home/dev";
     existsSync := fun w p => match w !! p with Some _ => true | None => false end;
     readdirSync := fun w p =>
       match w !! p with
       | Some entries => inr entries
       | None => inl (mkError "ENOENT: no such file or directory")
       end;
     ensureDirSync := fun w p =>
       (match w !! p with Some _ => w | None => <[p := []]> w end, None);
     copySync := fun w _ dest _ => (<[dest := templateEntries]> w, None);
     rename := fun w _ _ => w;
     execa := fun w command _ =>
       if existsb (String.eqb command) (broken s)
       then (w, Some (mkError ("Command failed: " +:+ command)))
       else (w, None);
     require_engines := fun _ _ => inr [("node", ">=14"); ("yarn", ">=1.15")];
     checkNodeVersion := fun _ _ => installed s |}.

Definition upToDate : VersionResult :=
  {| isSatisfied := true;
     versions :=
       [ ("node", {| vi_isSatisfied := true; version := "14.17.0"; wanted := ">=14" |});
         ("yarn", {| vi_isSatisfied := true; version := "1.22.10"; wanted := ">=1.15" |}) ] |}.

Definition oldNode : VersionResult :=
  {| isSatisfied := false;
     versions :=
       [ ("node", {| vi_isSatisfied := false; version := "12.22.1"; wanted := ">=14" |});
         ("yarn", {| vi_isSatisfied := true; version := "1.22.10"; wanted := ">=1.15" |}) ] |}.

Definition healthy : Setup := {| installed := upToDate; broken := [] |}.
Definition outdated : Setup := {| installed := oldNode; broken := [] |}.

(** A home directory, without and with a non-empty [blog]. *)
Definition emptyHome : gmap string (list string) := {[ "/home/dev" := [] ]}.
Definition homeWithBlog : gmap string (list string) :=
  {[ "/home/dev" := ["blog"]; "/home/dev/blog" := ["notes.txt"] ]}.

Definition cli (args : list string) (yarnInstall typescript overwrite : bool) : Argv :=
  {| args := args; yarnInstall := yarnInstall; typescript := typescript;
     overwrite := overwrite |}.
End Toy.

End Scaffolder.

(* ===================================================================== *)
(** * Properties of the GraphQL provider *)
(* ===================================================================== *)

Module ProviderProps.
Import Provider.

(** ** Header objects *)

Section HeaderObjects.
Implicit Types (o a b : list (string * string)) (k v n : string).

Lemma headersToLowerCase_lowerInto o : headersToLowerCase o = lowerInto ∅ o.
Proof. reflexivity. Qed.

(** Lower-casing keeps, for each name, the last property so named. *)
Lemma lowerInto_lookup o : forall (m : gmap string string) n,
  lowerInto m o !! n =
  match last (named n o) with
  | Some e => Some (snd e)
  | None => m !! n
  end.
Proof.
  induction o as [|e o IH]; intros m n; [reflexivity|].
  change (lowerInto m (e :: o)) with (lowerInto (<[toLowerCase (fst e) := snd e]> m) o).
  rewrite IH. unfold named. cbn [List.filter].
  destruct (String.eqb (toLowerCase (fst e)) n) eqn:He.
  - apply String.eqb_eq in He. rewrite last_cons.
    destruct (last _); [reflexivity|]. rewrite He. apply lookup_insert_eq.
  - apply String.eqb_neq in He.
    destruct (last _); [reflexivity|]. now apply lookup_insert_ne.
Qed.

Lemma named_app n a b : named n (a ++ b) = named n a ++ named n b.
Proof. apply List.filter_app. Qed.

Lemma named_nil n o :
  (forall e, e ∈ o -> toLowerCase (fst e) <> n) -> named n o = [].
Proof.
  induction o as [|e o IH]; intros H; [reflexivity|].
  unfold named. cbn [List.filter].
  destruct (String.eqb_spec (toLowerCase (fst e)) n) as [He|He].
  - exfalso. apply (H e); [apply elem_of_cons; now left | exact He].
  - apply IH. intros e' He'. apply H. apply elem_of_cons. now right.
Qed.

Lemma obj_set_keys k v o k' :
  k' ∈ map fst (obj_set k v o) <-> k' = k \/ k' ∈ map fst o.
Proof.
  induction o as [|[k0 v0] o IH]; cbn.
  - rewrite list_elem_of_singleton, elem_of_nil. tauto.
  - destruct (String.eqb_spec k0 k) as [->|Hne]; cbn.
    + rewrite !elem_of_cons. tauto.
    + rewrite !elem_of_cons, IH. tauto.
Qed.

Lemma obj_set_NoDup k v o : NoDup (map fst o) -> NoDup (map fst (obj_set k v o)).
Proof.
  induction o as [|[k0 v0] o IH]; cbn; intros H.
  - apply NoDup_singleton.
  - apply NoDup_cons in H as [Hnot Hrest].
    destruct (String.eqb_spec k0 k) as [->|Hne]; cbn.
    + now apply NoDup_cons.
    + apply NoDup_cons. split; [|now apply IH].
      rewrite obj_set_keys. intros [Heq|Hin]; [congruence | contradiction].
Qed.

Lemma obj_spread_snoc a b e :
  obj_spread a (b ++ [e]) = obj_set (fst e) (snd e) (obj_spread a b).
Proof. unfold obj_spread. now rewrite fold_left_app. Qed.

Lemma obj_spread_keys a b k :
  k ∈ map fst (obj_spread a b) -> k ∈ map fst a \/ k ∈ map fst b.
Proof.
  induction b as [|e b IH] using rev_ind; [now left|].
  rewrite obj_spread_snoc, obj_set_keys, map_app, elem_of_app. cbn.
  rewrite list_elem_of_singleton. tauto.
Qed.

Lemma obj_spread_NoDup a b : NoDup (map fst a) -> NoDup (map fst (obj_spread a b)).
Proof.
  intros Ha. induction b as [|e b IH] using rev_ind; [exact Ha|].
  rewrite obj_spread_snoc. now apply obj_set_NoDup.
Qed.

(** Setting a property leaves the properties of other names alone. *)
Lemma named_obj_set_other k v n o :
  toLowerCase k <> n -> named n (obj_set k v o) = named n o.
Proof.
  intros Hk. induction o as [|[k0 v0] o IH]; cbn.
  - now destruct (String.eqb_spec (toLowerCase k) n).
  - destruct (String.eqb_spec k0 k) as [->|Hne]; cbn.
    + now destruct (String.eqb_spec (toLowerCase k) n).
    + unfold named in IH. now rewrite IH.
Qed.

(** A new property comes last among those of its name. *)
Lemma named_obj_set_new k v o :
  k ∉ map fst o ->
  named (toLowerCase k) (obj_set k v o) = named (toLowerCase k) o ++ [(k, v)].
Proof.
  induction o as [|[k0 v0] o IH]; cbn; intros Hk.
  - now rewrite String.eqb_refl.
  - rewrite not_elem_of_cons in Hk. destruct Hk as [Hne Hk].
    destruct (String.eqb_spec k0 k) as [->|_]; [congruence|]. cbn.
    unfold named in IH. rewrite IH by exact Hk.
    now destruct (String.eqb (toLowerCase k0) (toLowerCase k)).
Qed.

(** Where a name occurs at most once, the property set under it is the last
    of that name. *)
Lemma named_obj_set_last k v o :
  length (named (toLowerCase k) o) <= 1 ->
  last (named (toLowerCase k) (obj_set k v o)) = Some (k, v).
Proof.
  unfold named.
  induction o as [|[k0 v0] o IH]; cbn; intros Hlen.
  - now rewrite String.eqb_refl.
  - destruct (String.eqb_spec k0 k) as [->|Hne]; cbn.
    + rewrite String.eqb_refl in *. cbn in Hlen.
      destruct (List.filter _ o); [reflexivity | cbn in Hlen; lia].
    + destruct (String.eqb (toLowerCase k0) (toLowerCase k)); cbn in Hlen.
      * rewrite last_cons. now rewrite IH by lia.
      * now apply IH.
Qed.

(** Spreading over an object that has no property of a name keeps the
    properties of that name as they are. *)
Lemma named_obj_spread n a b :
  (forall e, e ∈ a -> toLowerCase (fst e) <> n) ->
  NoDup (map fst b) ->
  named n (obj_spread a b) = named n b.
Proof.
  intros Ha. induction b as [|[k v] b IH] using rev_ind; intros Hb.
  - now apply named_nil.
  - rewrite map_app in Hb. apply NoDup_app in Hb as (Hb & Hfresh & _).
    rewrite obj_spread_snoc, named_app. cbn [fst snd].
    destruct (String.eqb_spec (toLowerCase k) n) as [Hk|Hk].
    + subst n. rewrite named_obj_set_new.
      * rewrite IH by exact Hb. f_equal. cbn. now rewrite String.eqb_refl.
      * intros Hin. apply obj_spread_keys in Hin as [Hin|Hin].
        -- apply list_elem_of_In, in_map_iff in Hin as ([k' v'] & Heq & Hin).
           cbn in Heq. subst k'.
           now apply (Ha (k, v')); [apply list_elem_of_In|].
        -- apply (Hfresh k Hin). cbn. apply elem_of_cons. now left.
    + rewrite named_obj_set_other, IH by assumption.
      cbn. destruct (String.eqb_spec (toLowerCase k) n); [contradiction|].
      now rewrite app_nil_r.
Qed.

Lemma caseDistinct_keys o : caseDistinct o -> NoDup (map fst o).
Proof.
  unfold caseDistinct.
  induction o as [|e o IH]; cbn; intros H; [constructor|].
  apply NoDup_cons in H as [Hnot Hrest]. apply NoDup_cons. split; [|now apply IH].
  intros Hin. apply Hnot.
  apply list_elem_of_In, in_map_iff in Hin as (e' & Heq & Hin).
  apply list_elem_of_In, in_map_iff. exists e'. now rewrite Heq.
Qed.

Lemma caseDistinct_fresh (e : string * string) o :
  toLowerCase (fst e) ∉ map (fun e => toLowerCase (fst e)) o ->
  named (toLowerCase (fst e)) o = [].
Proof.
  intros Hnot. apply named_nil. intros e' Hin Heq. apply Hnot.
  rewrite <- Heq. apply list_elem_of_In, in_map_iff. exists e'.
  split; [reflexivity | now apply list_elem_of_In].
Qed.

Lemma caseDistinct_once n o : caseDistinct o -> length (named n o) <= 1.
Proof.
  unfold caseDistinct.
  induction o as [|e o IH]; cbn; intros H; [lia|].
  apply NoDup_cons in H as [Hnot Hrest].
  destruct (String.eqb_spec (toLowerCase (fst e)) n) as [He|He]; [|now apply IH].
  subst n. fold (named (toLowerCase (fst e)) o).
  rewrite caseDistinct_fresh by exact Hnot. cbn. lia.
Qed.

Lemma caseDistinct_named k v o :
  caseDistinct o -> (k, v) ∈ o -> named (toLowerCase k) o = [(k, v)].
Proof.
  unfold caseDistinct.
  induction o as [|e o IH]; cbn; intros H Hin; [now apply elem_of_nil in Hin|].
  apply NoDup_cons in H as [Hnot Hrest].
  apply elem_of_cons in Hin as [<-|Hin].
  - cbn. rewrite String.eqb_refl. f_equal.
    now apply (caseDistinct_fresh (k, v)).
  - destruct (String.eqb_spec (toLowerCase (fst e)) (toLowerCase k)) as [He|He];
      [|now apply IH].
    exfalso. apply Hnot. rewrite He.
    apply list_elem_of_In, in_map_iff. exists (k, v).
    split; [reflexivity | now apply list_elem_of_In].
Qed.

(** The client-awareness headers are not auth headers. *)
Lemma clientAwareness_no_auth ca (e : string * string) n :
  e ∈ clientAwarenessHeaders ca ->
  n = "authorization" \/ n = "auth-provider" ->
  toLowerCase (fst e) <> n.
Proof.
  intros Hin Hn. apply list_elem_of_In in Hin. unfold clientAwarenessHeaders in Hin.
  destruct ca as [[name version]|]; [|contradiction]. cbn in Hin.
  destruct name as [name|], version as [version|]; cbn in Hin;
    repeat match type of Hin with
           | context [String.eqb ?x ""] => destruct (String.eqb x ""); cbn in Hin
           end;
    repeat match type of Hin with
           | _ \/ _ => destruct Hin as [Hin|Hin]
           | False => contradiction
           end;
    subst e; destruct Hn as [-> | ->]; discriminate.
Qed.
End HeaderObjects.

(** ** The link chain *)

(** The three links run in the order of the list given to [from]. *)
Lemma rwLink_order auth fc op fwd :
  rwLink auth fc op fwd =
  withToken auth op
    (fun op1 => authMiddleware auth fc op1 (fun op2 => httpLink fc op2 fwd)).
Proof. reflexivity. Qed.

(** What the chain does with an operation. *)
Lemma execute_rwLink auth fc op :
  execute (rwLink auth fc) op =
  match resolvedToken auth with
  | Resolved t =>
      Sent {| req_uri := selectURI (ctx_uri (context op)) (uri fc);
              req_headers :=
                spread fallbackHttpHeaders
                  (headersToLowerCase
                     (obj_spread
                        (clientAwarenessHeaders (ctx_clientAwareness (context op)))
                        (obj_spread (default [] (headers fc))
                                    (authHeaders auth (Some t)))));
              req_credentials := ctx_credentials (context op);
              req_fetchOptions := ctx_fetchOptions (context op);
              req_http := ctx_http (context op) |}
  | Rejected reason => Failed reason
  end.
Proof.
  unfold execute, rwLink, from, resolvedToken. cbn.
  unfold concat, withToken, setContext, tokenSetter.
  destruct (isAuthenticated auth); [destruct (getToken auth) as [g|]|];
    [destruct (g tt)| |]; reflexivity.
Qed.

(** The token is [null] when signed out or when there is no getter. *)
Lemma resolvedToken_null auth :
  isAuthenticated auth = false \/ getToken auth = None ->
  resolvedToken auth = Resolved TNull.
Proof.
  unfold resolvedToken, tokenSetter.
  intros [H|H]; rewrite H; [|destruct (isAuthenticated auth)]; reflexivity.
Qed.

Lemma authHeaders_falsy auth t :
  truthy_token t = false -> authHeaders auth (Some t) = [].
Proof.
  intros H. unfold authHeaders. cbn [truthy_context_token]. now rewrite H.
Qed.

Lemma spread_lookup {V} (a b : gmap string V) k :
  spread a b !! k = match b !! k with Some v => Some v | None => a !! k end.
Proof. unfold spread. rewrite lookup_union. destruct (b !! k), (a !! k); reflexivity. Qed.

(** An auth header of a request is the last property of that name, up to
    case, among the headers the auth middleware has put in the context. *)
Lemma request_auth_header ca (h : list (string * string)) n :
  n = "authorization" \/ n = "auth-provider" ->
  NoDup (map fst h) ->
  spread fallbackHttpHeaders
    (headersToLowerCase (obj_spread (clientAwarenessHeaders ca) h)) !! n
  = snd <$> last (named n h).
Proof.
  intros Hn Hh.
  rewrite spread_lookup, headersToLowerCase_lowerInto, lowerInto_lookup.
  rewrite named_obj_spread by (intros e He; now apply (clientAwareness_no_auth ca)) || exact Hh.
  destruct (last (named n h)); [reflexivity|].
  destruct Hn as [-> | ->]; reflexivity.
Qed.

(** C1, as the claim puts it: a request carries both auth headers when the
    token is present, and neither when it is absent. The second part fails
    when the fetch configuration already carries one: the user is signed in,
    the getter resolves to [null], and [useFetchConfig()] supplies
    [auth-provider]. The first part fails when the fetch configuration names
    [authorization] twice, the second time in another case: the HTTP link
    lower-cases the names in order, and the later property wins. *)
Lemma auth_headers_as_claimed_fails :
  ~ (forall auth fc op r t,
       resolvedToken auth = Resolved t ->
       execute (rwLink auth fc) op = Sent r ->
       (forall s, t = TString s -> s <> "" ->
          req_headers r !! "authorization" = Some ("Bearer " +:+ s) /\
          req_headers r !! "auth-provider" = Some (type auth)) /\
       (truthy_token t = false ->
          req_headers r !! "authorization" = None /\
          req_headers r !! "auth-provider" = None))
  /\ ~ (forall auth fc op r s,
          resolvedToken auth = Resolved (TString s) -> s <> "" ->
          execute (rwLink auth fc) op = Sent r ->
          req_headers r !! "authorization" = Some ("Bearer " +:+ s)).
Proof.
  split; intros H.
  - destruct (H Samples.expired Samples.labelledFetch Samples.query _ TNull
                eq_refl eq_refl) as [_ Hneither].
    destruct (Hneither eq_refl) as [_ Hp].
    vm_compute in Hp. discriminate Hp.
  - assert ("t0k3n" <> "") as Hne by discriminate.
    pose proof (H Samples.signedIn Samples.twiceNamedFetch Samples.query _ "t0k3n"
                  eq_refl Hne eq_refl) as Ha.
    vm_compute in Ha. discriminate Ha.
Qed.

(** C1, amended. For every operation sent through the Redwood link chain,
    with a fetch configuration that names each header once, whatever the
    letter case: when the token getter rejects nothing is sent; otherwise one
    request goes out and
    - when the resolved token is present (not [null], not empty) its headers
      include [authorization: Bearer <token>] and [auth-provider: <type>];
    - when it is not, the chain adds neither header: the request includes an
      auth header only if the fetch configuration supplies a header of that
      name, and then with the value given there.
    The token resolves to [null] whenever the user is not authenticated or no
    token getter is supplied. *)
Theorem auth_headers_follow_token auth fc op :
  caseDistinct (default [] (headers fc)) ->
  match resolvedToken auth with
  | Resolved t =>
      exists r, execute (rwLink auth fc) op = Sent r /\
        if truthy_token t then
          exists s, t = TString s /\
            req_headers r !! "authorization" = Some ("Bearer " +:+ s) /\
            req_headers r !! "auth-provider" = Some (type auth)
        else
          forall n, n = "authorization" \/ n = "auth-provider" ->
            (forall k v, (k, v) ∈ default [] (headers fc) -> toLowerCase k = n ->
                         req_headers r !! n = Some v)
            /\ ((forall k v, (k, v) ∈ default [] (headers fc) -> toLowerCase k <> n) ->
                req_headers r !! n = None)
  | Rejected reason => execute (rwLink auth fc) op = Failed reason
  end
  /\ (isAuthenticated auth = false \/ getToken auth = None ->
      resolvedToken auth = Resolved TNull).
Proof.
  intros Hfetch. split; [|apply resolvedToken_null].
  rewrite execute_rwLink.
  destruct (resolvedToken auth) as [t|reason]; [|reflexivity].
  eexists. split; [reflexivity|]. cbn [req_headers].
  pose proof (caseDistinct_keys _ Hfetch) as Hkeys.
  destruct (truthy_token t) eqn:Ht.
  - destruct t as [|s]; [discriminate|]. exists s. split; [reflexivity|].
    unfold authHeaders. cbn [truthy_context_token token_text]. rewrite Ht.
    change (obj_spread (default [] (headers fc))
              [("auth-provider", type auth); ("authorization", "Bearer " +:+ s)])
      with (obj_set "authorization" ("Bearer " +:+ s)
              (obj_set "auth-provider" (type auth) (default [] (headers fc)))).
    split.
    + rewrite request_auth_header by (auto using obj_set_NoDup).
      change "authorization" with (toLowerCase "authorization") at 1.
      rewrite named_obj_set_last; [reflexivity|].
      rewrite named_obj_set_other by discriminate.
      now apply caseDistinct_once.
    + rewrite request_auth_header by (auto using obj_set_NoDup).
      rewrite named_obj_set_other by discriminate.
      change "auth-provider" with (toLowerCase "auth-provider") at 1.
      rewrite named_obj_set_last; [reflexivity|].
      now apply caseDistinct_once.
  - rewrite (authHeaders_falsy auth t Ht).
    change (obj_spread (default [] (headers fc)) []) with (default [] (headers fc)).
    intros n Hn. rewrite request_auth_header by assumption. split.
    + intros k v Hin <-. now rewrite (caseDistinct_named k v _ Hfetch Hin).
    + intros Hnone. rewrite named_nil; [reflexivity|].
      intros [k v] Hin. now apply (Hnone k v).
Qed.

(** The amended claim at work: signed out, no headers in the fetch
    configuration, so neither auth header is sent. *)
Lemma auth_headers_follow_token_witness :
  resolvedToken Samples.anonymous = Resolved TNull /\
  exists r, execute (rwLink Samples.anonymous Samples.plainFetch) Samples.query = Sent r /\
    req_headers r !! "authorization" = None /\
    req_headers r !! "auth-provider" = None.
Proof.
  assert (caseDistinct (default [] (headers Samples.plainFetch))) as Hfetch
    by constructor.
  pose proof (auth_headers_follow_token Samples.anonymous Samples.plainFetch
                Samples.query Hfetch) as [H Hnull].
  assert (resolvedToken Samples.anonymous = Resolved TNull) as Hr
    by (apply Hnull; left; reflexivity).
  split; [exact Hr|].
  rewrite Hr in H. destruct H as (r & Hsent & H). cbn in H.
  exists r. split; [exact Hsent|].
  split.
  - apply (H "authorization"); [now left|]. intros k v Hin. now apply elem_of_nil in Hin.
  - apply (H "auth-provider"); [now right|]. intros k v Hin. now apply elem_of_nil in Hin.
Defined.

(** ** The client options *)

Section ClientProps.
Variable auth : AuthContext.
Variable fetchConfig : FetchConfig.

Lemma rest_lookup (config : gmap string Value) k :
  k <> "link" -> k <> "cacheConfig" ->
  delete "cacheConfig" (delete "link" config) !! k = config !! k.
Proof.
  intros Hl Hc.
  rewrite lookup_delete_ne by congruence.
  now rewrite lookup_delete_ne by congruence.
Qed.

Lemma rest_no_link (config : gmap string Value) :
  delete "cacheConfig" (delete "link" config) !! "link" = None.
Proof.
  rewrite lookup_delete_ne by discriminate. apply lookup_delete_eq.
Qed.

(** The link of the client is chosen from the [link] field alone. *)
Lemma client_link (config : gmap string Value) :
  clientOptions auth fetchConfig (Some config) !! "link"
  = Some (chooseLink auth fetchConfig (prop config "link")).
Proof.
  unfold clientOptions, spread. cbn [default].
  rewrite lookup_union_r by apply rest_no_link.
  apply lookup_insert_eq.
Qed.
End ClientProps.



(** C9. If the [link] field of the configuration is a function, the client
    is built with the result of applying it to the Redwood link; if it is a
    link object (or any other truthy value that is not a function), that
    value is the client's link, unchanged; if it is absent or [undefined],
    the Redwood link is used. The Redwood link runs the token-fetch
    context link, then the auth middleware, then the terminating HTTP link. *)
Theorem link_field_decides_link auth fc (config : gmap string Value) :
  (forall f, config !! "link" = Some (VLinkFn f) ->
     clientOptions auth fc (Some config) !! "link" = Some (VLink (f (rwLink auth fc))))
  /\ (forall l, config !! "link" = Some (VLink l) ->
      clientOptions auth fc (Some config) !! "link" = Some (VLink l))
  /\ (forall v, config !! "link" = Some v -> truthy v = true ->
      (forall f, v <> VLinkFn f) ->
      clientOptions auth fc (Some config) !! "link" = Some v)
  /\ (config !! "link" = None \/ config !! "link" = Some VUndefined ->
      clientOptions auth fc (Some config) !! "link" = Some (VLink (rwLink auth fc)))
  /\ clientOptions auth fc None !! "link" = Some (VLink (rwLink auth fc))
  /\ rwLink auth fc = from [withToken auth; authMiddleware auth fc; httpLink fc]
  /\ (forall op fwd,
      rwLink auth fc op fwd =
      withToken auth op
        (fun op1 => authMiddleware auth fc op1 (fun op2 => httpLink fc op2 fwd))).
Proof.
  repeat split.
  - intros f H. rewrite client_link. unfold prop. now rewrite H.
  - intros l H. rewrite client_link. unfold prop. now rewrite H.
  - intros v H Hv Hfn. rewrite client_link. unfold prop, chooseLink.
    rewrite H. change (default VUndefined (Some v)) with v. rewrite Hv.
    destruct v; try reflexivity. now contradiction (Hfn f).
  - intros [H|H]; rewrite client_link; unfold prop; now rewrite H.
Qed.

(** The three shapes of the [link] field. *)
Lemma link_field_decides_link_witness :
  clientOptions Samples.signedIn Samples.plainFetch (Some Samples.configWithLinkFn) !! "link"
  = Some (VLink (Samples.wrapLink (rwLink Samples.signedIn Samples.plainFetch)))
  /\ clientOptions Samples.signedIn Samples.plainFetch (Some Samples.configWithLink) !! "link"
     = Some (VLink Samples.userLink)
  /\ clientOptions Samples.signedIn Samples.plainFetch (Some Samples.configPlain) !! "link"
     = Some (VLink (rwLink Samples.signedIn Samples.plainFetch)).
Proof.
  split; [|split].
  - destruct (link_field_decides_link Samples.signedIn Samples.plainFetch
                Samples.configWithLinkFn) as (Hfn & _).
    exact (Hfn Samples.wrapLink eq_refl).
  - destruct (link_field_decides_link Samples.signedIn Samples.plainFetch
                Samples.configWithLink) as (_ & Hobj & _).
    exact (Hobj Samples.userLink eq_refl).
  - destruct (link_field_decides_link Samples.signedIn Samples.plainFetch
                Samples.configPlain) as (_ & _ & _ & Habsent & _).
    exact (Habsent (or_introl eq_refl)).
Defined.

End ProviderProps.

(* ===================================================================== *)
(** * Properties of the scaffolder *)
(* ===================================================================== *)

Module ScaffolderProps.
Import Scaffolder.

(** ** The target directory *)

Lemma replace_commas_app a b :
  replace_commas (a +:+ b) = replace_commas a +:+ replace_commas b.
Proof.
  induction a as [|c a IH]; [reflexivity|].
  change (replace_commas (String c (a +:+ b))
          = String (if Ascii.eqb c "," then "-"%char else c)
                   (replace_commas a +:+ replace_commas b)).
  cbn [replace_commas]. now rewrite IH.
Qed.

Lemma replace_commas_length s : String.length (replace_commas s) = String.length s.
Proof. induction s as [|c s IH]; cbn; [reflexivity | now rewrite IH]. Qed.

Lemma replace_commas_id s : has_comma s = false -> replace_commas s = s.
Proof.
  induction s as [|c s IH]; cbn; [reflexivity|].
  intros H. apply orb_false_iff in H as [Hc Hs].
  rewrite Hc. now rewrite IH.
Qed.

(** Joining with commas and replacing them is joining the replaced
    arguments with dashes. *)
Lemma targetDir_join args :
  targetDir args = String.concat "-" (map replace_commas args).
Proof.
  unfold targetDir, array_toString.
  induction args as [|a [|b rest] IH]; [reflexivity | reflexivity |].
  change (String.concat "," (a :: b :: rest))
    with (a +:+ "," +:+ String.concat "," (b :: rest)).
  change (String.concat "-" (map replace_commas (a :: b :: rest)))
    with (replace_commas a +:+ "-"
            +:+ String.concat "-" (map replace_commas (b :: rest))).
  rewrite !replace_commas_app. now rewrite IH.
Qed.

Lemma targetDir_plain args :
  Forall (fun a => has_comma a = false) args ->
  targetDir args = String.concat "-" args.
Proof.
  intros H. rewrite targetDir_join. f_equal.
  induction H as [|a rest Ha _ IH]; cbn; [reflexivity|].
  now rewrite IH, replace_commas_id.
Qed.

Lemma string_app_length (a b : string) :
  String.length (a +:+ b) = String.length a + String.length b.
Proof.
  induction a as [|c a IH]; [reflexivity|].
  change (String.length (String c (a +:+ b)) = S (String.length a + String.length b)).
  cbn [String.length]. now rewrite IH.
Qed.

Lemma targetDir_nonempty args : 2 <= length args -> targetDir args <> "".
Proof.
  destruct args as [|a [|b rest]]; cbn [length]; [lia | lia |].
  intros _ H. apply (f_equal String.length) in H.
  unfold targetDir, array_toString in H.
  change (String.concat "," (a :: b :: rest))
    with (a +:+ "," +:+ String.concat "," (b :: rest)) in H.
  rewrite replace_commas_length, !string_app_length in H. cbn in H. lia.
Qed.

(** ** Running the script: tactics *)

(** Unfold the script and the monad down to the calls of the outside
    world. *)
Ltac unfold_script :=
  cbv beta iota zeta delta
    [main createApp usage onError mainTasks createProjectTasks
     installNodeModulesTasks copyTemplate checkVersions execaTask logLines
     run_list run_task exec_action exec_work isEnabled skipValue
     title enabled skip task truthy_skip skip_output negb andb app
     bind try_catch emit ret throw process_exit call_read call_write
     call_detached ask events result final].

(** Case on whatever the next step of the run depends on, unless a
    hypothesis tells. *)
Ltac explore :=
  repeat match goal with
  | H : ?x = _ |- context [match ?x with _ => _ end] => rewrite H; cbn
  | |- context [match ?x with _ => _ end] =>
      lazymatch x with
      | context [match _ with _ => _ end] => fail
      | _ => destruct x eqn:?; cbn
      end
  end.

(** Explore the runs of [main] with the property itself kept folded. *)
Ltac explore_main sys argv w :=
  pattern (main sys argv w);
  match goal with
  | |- ?P _ =>
      let Q := fresh "Q" in
      let HQ := fresh "HQ" in
      remember P as Q eqn:HQ; unfold_script; explore; subst Q; cbv beta
  end.

(** Split a [Forall] over a concrete list. *)
Ltac forall_list :=
  repeat match goal with
         | |- Forall _ [] => apply List.Forall_nil
         | |- Forall _ (_ :: _) => apply List.Forall_cons
         end.

Lemma eqb_empty_false s : s <> "" -> String.eqb s "" = false.
Proof. intros H. now apply String.eqb_neq. Qed.

(** C7. With no positional argument the script prints the usage hint (the
    complaint on the error stream, four lines on the output stream), exits
    with code 1, enters no task and leaves the world as it was. *)
Theorem no_directory_prints_usage {World} (sys : Sys World) argv w :
  args argv = [] ->
  main sys argv w =
    mkRun w
      [ ConsoleError "Please specify the project directory";
        ConsoleLog ("  " +:+ chalk_cyan (style sys) "yarn create redwood-app" +:+ " "
                      +:+ chalk_green (style sys) "<project-directory>");
        ConsoleLog "";
        ConsoleLog "For example:";
        ConsoleLog ("  " +:+ chalk_cyan (style sys) "yarn create redwood-app" +:+ " "
                      +:+ chalk_green (style sys) "my-redwood-app") ]
      (Exit 1)
  /\ exitCode (result (main sys argv w)) = 1%Z
  /\ Forall (fun ev => taskActivity ev = false) (events (main sys argv w)).
Proof.
  intros Hargs.
  assert (main sys argv w =
    mkRun w
      [ ConsoleError "Please specify the project directory";
        ConsoleLog ("  " +:+ chalk_cyan (style sys) "yarn create redwood-app" +:+ " "
                      +:+ chalk_green (style sys) "<project-directory>");
        ConsoleLog "";
        ConsoleLog "For example:";
        ConsoleLog ("  " +:+ chalk_cyan (style sys) "yarn create redwood-app" +:+ " "
                      +:+ chalk_green (style sys) "my-redwood-app") ]
      (Exit 1)) as Hrun.
  { unfold main. rewrite Hargs. reflexivity. }
  rewrite Hrun. split; [reflexivity|]. split; [reflexivity|].
  cbn [events]. repeat constructor.
Qed.

Lemma no_directory_prints_usage_witness :
  exitCode (result (main (Toy.sys Toy.healthy) (Toy.cli [] true false false) Toy.emptyHome))
  = 1%Z.
Proof.
  apply (no_directory_prints_usage (Toy.sys Toy.healthy) (Toy.cli [] true false false)
           Toy.emptyHome).
  reflexivity.
Defined.

(** C10, as the claim puts it: the target directory is the arguments joined
    with dashes. It fails for an argument that holds a comma. *)
Lemma join_as_claimed_fails :
  ~ (forall args, 2 <= length args -> targetDir args = String.concat "-" args).
Proof.
  intros H. specialize (H ["a,b"; "c"] (le_n 2)). vm_compute in H. discriminate H.
Qed.

(** C10, amended. With two or more positional arguments the script does not
    stop at the usage hint: the target directory is the arguments, each with
    its commas replaced by dashes, joined with dashes (the plain join when no
    argument holds a comma, so [a b] gives [a-b]), it is not empty, and the
    run goes on against it. *)
Theorem several_arguments_are_joined {World} (sys : Sys World) argv w :
  2 <= length (args argv) ->
  targetDir (args argv) = String.concat "-" (map replace_commas (args argv))
  /\ (Forall (fun a => has_comma a = false) (args argv) ->
      targetDir (args argv) = String.concat "-" (args argv))
  /\ targetDir (args argv) <> ""
  /\ main sys argv w = createApp sys argv (targetDir (args argv)) w
  /\ exists rest,
       events (main sys argv w) = TaskPending "Creating Redwood app" :: rest.
Proof.
  intros Hlen.
  pose proof (targetDir_nonempty (args argv) Hlen) as Hne.
  assert (main sys argv w = createApp sys argv (targetDir (args argv)) w) as Hmain
    by (unfold main; now rewrite (eqb_empty_false _ Hne)).
  split; [apply targetDir_join|].
  split; [apply targetDir_plain|].
  split; [exact Hne|].
  split; [exact Hmain|].
  rewrite Hmain. unfold_script. explore; eexists; reflexivity.
Qed.

Lemma several_arguments_are_joined_witness :
  targetDir ["a"; "b"] = "a-b"
  /\ exists rest,
       events (main (Toy.sys Toy.healthy) (Toy.cli ["a"; "b"] true false false) Toy.emptyHome)
       = TaskPending "Creating Redwood app" :: rest.
Proof.
  destruct (several_arguments_are_joined (Toy.sys Toy.healthy)
              (Toy.cli ["a"; "b"] true false false) Toy.emptyHome (le_n 2))
    as (Hjoin & _ & _ & _ & Hrun).
  split; [exact Hjoin | exact Hrun].
Defined.

(** ** The version check *)

Lemma filter_unsatisfied_spec (vs : list (string * VersionInfo)) entry :
  In entry (List.filter unsatisfied vs)
  <-> In entry vs /\ vi_isSatisfied (snd entry) = false.
Proof.
  rewrite filter_In. unfold unsatisfied. rewrite negb_true_iff. reflexivity.
Qed.

(** C6. When the requirements are not satisfied, the version task rejects
    with one error whose message joins, with line feeds, one statement per
    unsatisfied dependency (its name, the wanted range and the installed
    version) and the two closing lines; a satisfied dependency has no
    statement. Run by the task list, the task is marked failed with that
    error. *)
Theorem version_failures_are_joined {World} (sys : Sys World) w engines :
  require_engines sys w (path_join sys (templateDir sys) "package.json") = inr engines ->
  isSatisfied (checkNodeVersion sys w engines) = false ->
  let r := checkNodeVersion sys w engines in
  let failures := List.filter unsatisfied (versions r) in
  result (checkVersions sys w) = Throw (versionError sys r)
  /\ message (versionError sys r)
     = String.concat nl
         (map (versionStatement sys) failures
            ++ [ style_header (style sys) (nl +:+ "Visit requirements documentation:");
                 style_warning (style sys)
                   ("https://learn.redwoodjs.com/docs/tutorial/prerequisites/#nodejs-and-yarn-versions"
                      +:+ nl) ])
  /\ length (map (versionStatement sys) failures) = length failures
  /\ (forall entry,
        In entry failures <-> In entry (versions r) /\ vi_isSatisfied (snd entry) = false)
  /\ (forall name info,
        versionStatement sys (name, info)
        = style_error (style sys)
            (name +:+ " " +:+ wanted info +:+ " required, but you have " +:+ version info))
  /\ (forall argv,
        yarnInstall argv = true -> targetDir (args argv) <> "" ->
        In (TaskFailed "Checking node and yarn compatibility" (versionError sys r))
           (events (main sys argv w))
        /\ exitCode (result (main sys argv w)) = 1%Z).
Proof.
  intros Hreq Hsat r failures.
  split.
  { unfold checkVersions, bind, call_read, throw, ret.
    rewrite Hreq. cbn. rewrite Hsat. reflexivity. }
  split; [reflexivity|].
  split; [apply length_map|].
  split; [intros entry; apply filter_unsatisfied_spec|].
  split; [reflexivity|].
  intros argv Hy Hne.
  unfold_script. rewrite (eqb_empty_false _ Hne), Hy. cbn.
  fold (templateDir sys). rewrite Hreq. cbn. rewrite Hsat. cbn.
  explore; (split; [|reflexivity]); cbn; repeat first [left; reflexivity | right].
Qed.

Lemma version_failures_are_joined_witness :
  message (versionError (Toy.sys Toy.outdated) Toy.oldNode)
  = "node >=14 required, but you have 12.22.1" +:+ nl
      +:+ nl +:+ "Visit requirements documentation:" +:+ nl
      +:+ "https://learn.redwoodjs.com/docs/tutorial/prerequisites/#nodejs-and-yarn-versions"
      +:+ nl.
Proof.
  destruct (version_failures_are_joined (Toy.sys Toy.outdated) Toy.emptyHome
              [("node", ">=14"); ("yarn", ">=1.15")] eq_refl eq_refl)
    as (_ & Hmsg & _).
  exact Hmsg.
Defined.

(** ** Whole runs *)

(** Membership in a concrete trace. *)
Ltac in_trace := cbn; repeat first [left; reflexivity | right].

(** Split a hypothesis of membership in a concrete trace. *)
Ltac split_in H :=
  cbn in H;
  repeat match type of H with
         | _ \/ _ => destruct H as [H|H]; [try discriminate H|]
         | False => destruct H
         end.

(** C2. When the target directory exists and is not empty and [--overwrite]
    is not given, the process exits with code 1, nothing is copied and the
    world is left as it was; an error has been printed: the complaint that
    the directory is not empty, once the directory task is reached, or else
    the error of the version task that failed before it. *)
Theorem nonempty_target_is_refused {World} (sys : Sys World) argv w entries :
  targetDir (args argv) <> "" ->
  existsSync sys w (path_resolve sys (cwd sys) (targetDir (args argv))) = true ->
  readdirSync sys w (path_resolve sys (cwd sys) (targetDir (args argv))) = inr entries ->
  entries <> [] ->
  overwrite argv = false ->
  let newAppDir := path_resolve sys (cwd sys) (targetDir (args argv)) in
  let r := main sys argv w in
  result r = Exit 1
  /\ exitCode (result r) = 1%Z
  /\ (forall src dest ov, ~ In (Called (CopySync src dest ov)) (events r))
  /\ final r = w
  /\ ((In (TaskPending (directoryTitle true newAppDir)) (events r)
       /\ last (events r) = Some (ConsoleError (notEmptyMessage sys newAppDir)))
      \/ exists e,
           In (TaskFailed "Checking node and yarn compatibility" e) (events r)
           /\ In (ConsoleLogError e) (events r)).
Proof.
  intros Hne Hex Hrd Hentries Hov newAppDir r. subst newAppDir r.
  destruct entries as [|entry entries]; [contradiction|].
  unfold_script.
  rewrite (eqb_empty_false _ Hne), Hex, Hov. cbn.
  explore.
  all: split; [reflexivity|].
  all: split; [reflexivity|].
  all: split; [intros src dest ov Hin; split_in Hin|].
  all: split; [reflexivity|].
  all: first [ left; split; [in_trace | reflexivity]
             | right; eexists; split; in_trace ].
Qed.

Lemma nonempty_target_is_refused_witness :
  result (main (Toy.sys Toy.healthy) (Toy.cli ["blog"] true false false) Toy.homeWithBlog)
  = Exit 1.
Proof.
  apply (nonempty_target_is_refused (Toy.sys Toy.healthy)
           (Toy.cli ["blog"] true false false) Toy.homeWithBlog ["notes.txt"]).
  - vm_compute. discriminate.
  - reflexivity.
  - reflexivity.
  - discriminate.
  - reflexivity.
Defined.

(** C3. With [--no-yarn-install] the skip functions of the install task and
    of the type-generation task return a truthy value; in every run no
    subprocess is executed at all; a task of the two that is entered is
    marked skipped and never completed or failed; and a run that completes
    has skipped both. *)
Theorem no_yarn_install_skips_both {World} (sys : Sys World) argv w :
  yarnInstall argv = false ->
  let newAppDir := path_resolve sys (cwd sys) (targetDir (args argv)) in
  let install := "Running 'yarn install'... (This could take a while)" in
  let r := main sys argv w in
  Forall (fun t => truthy_skip (skipValue t) = true)
    (installNodeModulesTasks sys argv newAppDir)
  /\ (forall appDirExists t,
        In t (mainTasks sys argv appDirExists newAppDir) ->
        title t = "Generating types" -> truthy_skip (skipValue t) = true)
  /\ (forall command dir, ~ In (Called (Execa command dir)) (events r))
  /\ (In (TaskPending install) (events r) ->
      In (TaskSkipped install (Some "skipped on request")) (events r))
  /\ (In (TaskPending "Generating types") (events r) ->
      In (TaskSkipped "Generating types" None) (events r))
  /\ (forall t, t = install \/ t = "Generating types" ->
        ~ In (TaskCompleted t) (events r) /\ forall e, ~ In (TaskFailed t e) (events r))
  /\ (result r = Ret tt ->
      In (TaskSkipped install (Some "skipped on request")) (events r)
      /\ In (TaskSkipped "Generating types" None) (events r)).
Proof.
  intros Hy newAppDir install r. subst newAppDir install r.
  split.
  { repeat constructor. cbn. now rewrite Hy. }
  split.
  { intros appDirExists t Hin Ht. cbn in Hin.
    destruct Hin as [<-|[<-|[<-|[<-|[]]]]]; try discriminate Ht.
    cbn. now rewrite Hy. }
  unfold_script. rewrite Hy. cbn.
  explore.
  all: split; [intros command dir Hin; split_in Hin|].
  all: split; [intros Hin; first [split_in Hin; fail | in_trace]|].
  all: split; [intros Hin; first [split_in Hin; fail | in_trace]|].
  all: split;
    [intros t [-> | ->]; (split; [intros Hin | intros ? Hin]); split_in Hin|].
  all: intros Hres; first [discriminate Hres | split; in_trace].
Qed.

Lemma no_yarn_install_skips_both_witness :
  let r := main (Toy.sys Toy.healthy) (Toy.cli ["blog"] false true false) Toy.emptyHome in
  In (TaskSkipped "Running 'yarn install'... (This could take a while)"
        (Some "skipped on request")) (events r)
  /\ In (TaskSkipped "Generating types" None) (events r).
Proof.
  destruct (no_yarn_install_skips_both (Toy.sys Toy.healthy)
              (Toy.cli ["blog"] false true false) Toy.emptyHome eq_refl)
    as (_ & _ & _ & _ & _ & _ & Hdone).
  apply Hdone. reflexivity.
Defined.



(** ** The order of tasks *)


Section ListrOrder.
Context {World A : Type}.
Variable exec : A -> M World unit.
Variable inner : A -> list string.




End ListrOrder.


Section ScriptOrder.
Context {World : Type}.
Variable sys : Sys World.
Variable argv : Argv.












End ScriptOrder.




End ScaffolderProps.

(* ===================================================================== *)
(** * Further properties of the GraphQL provider *)
(* ===================================================================== *)

Module ProviderExtras.
Import Provider.
Import ProviderProps.

Set Warnings "-clear-no-such-hyp".

(** ** Requests *)

(** X1. A token or headers that the caller, or a link placed in front, put
    in the context of an operation do not reach the request: the chain
    replaces both. Two operations whose contexts differ only there are sent
    alike. *)
Theorem request_ignores_context_token_and_headers auth fc op token h :
  execute (rwLink auth fc)
    {| operationName := operationName op;
       context := with_headers (with_token (context op) token) h |}
  = execute (rwLink auth fc) op.
Proof. now rewrite !execute_rwLink. Qed.

Lemma named_obj_spread_under n (a b : list (string * string)) :
  (forall e, e ∈ b -> toLowerCase (fst e) <> n) ->
  named n (obj_spread a b) = named n a.
Proof.
  induction b as [|[k v] b IH] using rev_ind; intros Hb; [reflexivity|].
  rewrite obj_spread_snoc. cbn [fst snd].
  rewrite named_obj_set_other.
  - apply IH. intros e He. apply Hb, elem_of_app. now left.
  - apply (Hb (k, v)), elem_of_app. right. apply elem_of_cons. now left.
Qed.

Lemma clientAwareness_names ca (e : string * string) :
  e ∈ clientAwarenessHeaders ca ->
  toLowerCase (fst e) = "apollographql-client-name"
  \/ toLowerCase (fst e) = "apollographql-client-version".
Proof.
  intros Hin. apply list_elem_of_In in Hin. unfold clientAwarenessHeaders in Hin.
  destruct ca as [[name version]|]; [|contradiction]. cbn in Hin.
  destruct name as [name|], version as [version|]; cbn in Hin;
    repeat match type of Hin with
           | context [String.eqb ?x ""] => destruct (String.eqb x ""); cbn in Hin
           end;
    repeat match type of Hin with
           | _ \/ _ => destruct Hin as [Hin|Hin]
           | False => contradiction
           end;
    subst e; auto.
Qed.

(** X2. With a fetch configuration that names each header once, a header of
    it other than the two auth headers and the two client-awareness headers
    is sent on every request, with or without a token, under its lower-cased
    name, and wins over the fallback of the HTTP link. *)
Theorem fetch_headers_are_forwarded auth fc op r k v :
  caseDistinct (default [] (headers fc)) ->
  (k, v) ∈ default [] (headers fc) ->
  toLowerCase k <> "authorization" -> toLowerCase k <> "auth-provider" ->
  toLowerCase k <> "apollographql-client-name" ->
  toLowerCase k <> "apollographql-client-version" ->
  execute (rwLink auth fc) op = Sent r ->
  req_headers r !! toLowerCase k = Some v.
Proof.
  intros Hfetch Hin Ha Hp Hcn Hcv. rewrite execute_rwLink.
  destruct (resolvedToken auth) as [t|reason]; [|discriminate].
  intros Hsent. injection Hsent as <-. cbn [req_headers].
  rewrite spread_lookup, headersToLowerCase_lowerInto, lowerInto_lookup.
  rewrite named_obj_spread.
  - rewrite named_obj_spread_under.
    + now rewrite (caseDistinct_named k v _ Hfetch Hin).
    + intros e He. unfold authHeaders in He.
      destruct (truthy_context_token (Some t)); [|now apply elem_of_nil in He].
      apply elem_of_cons in He as [->|He];
        [intros Heq; apply Hp; now rewrite <- Heq|].
      apply elem_of_cons in He as [->|He];
        [intros Heq; apply Ha; now rewrite <- Heq|].
      now apply elem_of_nil in He.
  - intros e He. destruct (clientAwareness_names _ e He) as [-> | ->]; congruence.
  - apply obj_spread_NoDup, caseDistinct_keys, Hfetch.
Qed.

Lemma fetch_headers_are_forwarded_witness :
  exists r, execute (rwLink Samples.signedIn Samples.tracedFetch) Samples.query = Sent r
    /\ req_headers r !! "x-trace" = Some "on"
    /\ req_headers r !! "content-type" = Some "text/plain".
Proof.
  assert (caseDistinct (default [] (headers Samples.tracedFetch))) as Hfetch.
  { repeat (apply NoDup_cons; split; [rewrite ?elem_of_cons, elem_of_nil; cbn;
                                       intuition discriminate|]).
    constructor. }
  eexists. split; [reflexivity|]. split.
  - apply (fetch_headers_are_forwarded Samples.signedIn Samples.tracedFetch
             Samples.query _ "X-Trace" "on" Hfetch); try discriminate;
      [apply elem_of_cons; now left | reflexivity].
  - apply (fetch_headers_are_forwarded Samples.signedIn Samples.tracedFetch
             Samples.query _ "Content-Type" "text/plain" Hfetch); try discriminate;
      [apply elem_of_cons; right; apply elem_of_cons; now left | reflexivity].
Defined.

(** X3. For a user who is not authenticated the token getter plays no part,
    and neither does the provider type: whatever the getter would do, even
    reject, the operation is sent, and sent as for any other user who is not
    authenticated. *)
Theorem signed_out_never_needs_getter auth auth' fc op :
  isAuthenticated auth = false ->
  isAuthenticated auth' = false ->
  execute (rwLink auth fc) op = execute (rwLink auth' fc) op
  /\ exists r, execute (rwLink auth fc) op = Sent r.
Proof.
  intros H H'.
  rewrite !execute_rwLink.
  rewrite (resolvedToken_null auth (or_introl H)), (resolvedToken_null auth' (or_introl H')).
  rewrite !authHeaders_falsy by reflexivity.
  split; [reflexivity | eexists; reflexivity].
Qed.

Lemma signed_out_never_needs_getter_witness :
  execute (rwLink Samples.signedOutBroken Samples.plainFetch) Samples.query
  = execute (rwLink Samples.anonymous Samples.plainFetch) Samples.query.
Proof.
  apply (signed_out_never_needs_getter Samples.signedOutBroken Samples.anonymous
           Samples.plainFetch Samples.query eq_refl eq_refl).
Defined.

(** ** Client options *)

Lemma chooseLink_truthy auth fc v : truthy (chooseLink auth fc v) = true.
Proof. unfold chooseLink. destruct (truthy v) eqn:Hv; [|reflexivity]. now destruct v. Qed.

(** X4. The client always gets a link: whatever the configuration holds,
    also none at all, the [link] option is a truthy value, and a falsy
    [link] field ([null], [false], [0], the empty string) gives the Redwood
    link. *)
Theorem client_always_has_link auth fc (config : option (gmap string Value)) :
  (exists v, clientOptions auth fc config !! "link" = Some v /\ truthy v = true)
  /\ (truthy (prop (default ∅ config) "link") = false ->
      clientOptions auth fc config !! "link" = Some (VLink (rwLink auth fc))).
Proof.
  assert (clientOptions auth fc config !! "link"
          = Some (chooseLink auth fc (prop (default ∅ config) "link"))) as Hlink.
  { destruct config as [config|]; [apply client_link|].
    apply (client_link auth fc ∅). }
  split.
  - eexists. split; [exact Hlink | apply chooseLink_truthy].
  - intros Hfalsy. rewrite Hlink. unfold chooseLink. now rewrite Hfalsy.
Qed.

Lemma client_always_has_link_witness :
  clientOptions Samples.signedIn Samples.plainFetch (Some Samples.configWithNullLink) !! "link"
  = Some (VLink (rwLink Samples.signedIn Samples.plainFetch)).
Proof.
  apply (client_always_has_link Samples.signedIn Samples.plainFetch
           (Some Samples.configWithNullLink)).
  reflexivity.
Defined.

(** X5. The options of the client are [link], [cache] and [defaultOptions]
    together with the properties of the configuration other than [link] and
    [cacheConfig]: nothing else is passed on, and [cacheConfig] itself never
    is. *)
Theorem client_option_names auth fc (config : gmap string Value) :
  dom (clientOptions auth fc (Some config))
  = ({[ "link"; "cache"; "defaultOptions" ]} ∪ (dom config ∖ {[ "link"; "cacheConfig" ]})
     : gset string).
Proof.
  unfold clientOptions, spread. cbn [default].
  rewrite dom_union_L, !dom_insert_L, !dom_delete_L, dom_empty_L.
  set_solver.
Qed.

(** X6. The type of the configuration, not the code, keeps the cache out of
    reach: a configuration object that does carry a [cache] property has that
    value used as the client's cache, in place of the [InMemoryCache] built
    from [cacheConfig]. *)
Theorem untyped_cache_wins auth fc (config : gmap string Value) v :
  config !! "cache" = Some v ->
  clientOptions auth fc (Some config) !! "cache" = Some v.
Proof.
  intros H. unfold clientOptions, spread. cbn [default].
  apply lookup_union_Some_l. now rewrite rest_lookup by discriminate.
Qed.

Lemma untyped_cache_wins_witness :
  clientOptions Samples.signedIn Samples.plainFetch (Some Samples.configWithCache) !! "cache"
  = Some (VStr "custom cache").
Proof.
  apply (untyped_cache_wins Samples.signedIn Samples.plainFetch Samples.configWithCache).
  reflexivity.
Defined.

End ProviderExtras.

(* ===================================================================== *)
(** * Further properties of the scaffolder *)
(* ===================================================================== *)

Module ScaffolderExtras.
Import Scaffolder.
Import ScaffolderProps.

(** ** The target directory *)

Lemma replace_commas_no_comma s : has_comma (replace_commas s) = false.
Proof.
  induction s as [|c s IH]; [reflexivity|].
  cbn [replace_commas has_comma]. rewrite IH, orb_false_r.
  destruct (Ascii.eqb c ",") eqn:Hc; [reflexivity | exact Hc].
Qed.

(** X7. The name of the target directory never holds a comma, whatever the
    arguments are. *)
Theorem targetDir_has_no_comma args : has_comma (targetDir args) = false.
Proof. apply replace_commas_no_comma. Qed.

Lemma replace_commas_empty s : replace_commas s = "" -> s = "".
Proof. destruct s; [reflexivity | discriminate]. Qed.

Lemma targetDir_empty_iff args : targetDir args = "" <-> args = [] \/ args = [""].
Proof.
  split.
  - destruct args as [|a [|b rest]].
    + now left.
    + intros H. right. f_equal. now apply replace_commas_empty.
    + intros H. exfalso. apply (targetDir_nonempty (a :: b :: rest)); [cbn; lia | exact H].
  - intros [-> | ->]; reflexivity.
Qed.

(** X8. The usage hint is what the script ends with exactly when there is no
    positional argument or the only one is the empty string; with any other
    arguments the first thing the script does is enter the task list. *)
Theorem usage_exactly_without_name {World} (sys : Sys World) argv w :
  (args argv = [] \/ args argv = [""] ->
   main sys argv w = (usage sys ;;; process_exit 1) w
   /\ result (main sys argv w) = Exit 1
   /\ pendingTitles (events (main sys argv w)) = [])
  /\ (~ (args argv = [] \/ args argv = [""]) ->
      exists rest, events (main sys argv w) = TaskPending "Creating Redwood app" :: rest).
Proof.
  split.
  - intros H. apply targetDir_empty_iff in H.
    unfold main. rewrite H. repeat split.
  - intros H.
    assert (targetDir (args argv) <> "") as Hne
      by (intros Hempty; apply H, targetDir_empty_iff, Hempty).
    unfold_script. rewrite (eqb_empty_false _ Hne).
    explore; eexists; reflexivity.
Qed.

Lemma usage_exactly_without_name_witness :
  result (main (Toy.sys Toy.healthy) (Toy.cli [""] true false false) Toy.emptyHome) = Exit 1
  /\ exists rest,
       events (main (Toy.sys Toy.healthy) (Toy.cli ["blog"] true false false) Toy.emptyHome)
       = TaskPending "Creating Redwood app" :: rest.
Proof.
  split.
  - apply (usage_exactly_without_name (Toy.sys Toy.healthy)
             (Toy.cli [""] true false false) Toy.emptyHome).
    right. reflexivity.
  - apply (usage_exactly_without_name (Toy.sys Toy.healthy)
             (Toy.cli ["blog"] true false false) Toy.emptyHome).
    intros [H|H]; discriminate H.
Defined.

(** ** How a run ends *)

(** X9. Whenever the script leaves through [process.exit], the code is 1
    and an error has been printed before: a line on the error stream, or the
    error logged by the handler. Whenever the run completes, no task has
    failed and the script has printed the success lines and nothing else. *)
Theorem exit_only_after_an_error {World} (sys : Sys World) argv w :
  let r := main sys argv w in
  (forall code, result r = Exit code ->
     code = 1%Z /\ existsb isErrorOutput (events r) = true)
  /\ (result r = Ret tt ->
      consoleOutput (events r) = map ConsoleLog (successLines sys (targetDir (args argv)))
      /\ fromFirstFailure (events r) = []).
Proof.
  intros r. subst r. explore_main sys argv w.
  all: split; [intros code Hcode; first [discriminate Hcode | injection Hcode as <-];
               split; reflexivity|].
  all: intros Hres; first [discriminate Hres | split; reflexivity].
Qed.

Lemma exit_only_after_an_error_witness :
  existsb isErrorOutput
    (events (main (Toy.sys Toy.healthy) (Toy.cli ["blog"] true false false) Toy.homeWithBlog))
  = true.
Proof.
  destruct (exit_only_after_an_error (Toy.sys Toy.healthy)
              (Toy.cli ["blog"] true false false) Toy.homeWithBlog) as [Hexit _].
  apply (Hexit 1%Z). reflexivity.
Defined.

(** ** What the flags switch off *)

(** X10. With [--no-yarn-install] the version requirements are not checked:
    the template's [package.json] is not loaded and [check-node-version] is
    not called; once a directory is named, the version task is marked
    skipped with its warning. *)
Theorem no_yarn_install_skips_version_check {World} (sys : Sys World) argv w :
  yarnInstall argv = false ->
  let r := main sys argv w in
  Forall (fun c => stepOfCall c <> Some CheckVersions) (calls (events r))
  /\ (targetDir (args argv) <> "" ->
      In (TaskSkipped "Checking node and yarn compatibility"
            (Some "Warning: skipping check on request")) (events r)).
Proof.
  intros Hy r. subst r. split.
  - unfold_script. rewrite Hy. cbn.
    explore; cbn; forall_list; discriminate.
  - intros Hne. unfold_script. rewrite (eqb_empty_false _ Hne), Hy. cbn.
    explore; in_trace.
Qed.

Lemma no_yarn_install_skips_version_check_witness :
  In (TaskSkipped "Checking node and yarn compatibility"
        (Some "Warning: skipping check on request"))
     (events (main (Toy.sys Toy.outdated) (Toy.cli ["blog"] false false false) Toy.emptyHome)).
Proof.
  apply (no_yarn_install_skips_version_check (Toy.sys Toy.outdated)
           (Toy.cli ["blog"] false false false) Toy.emptyHome eq_refl).
  vm_compute. discriminate.
Defined.

(** X11. What each subprocess presupposes. [yarn install] is executed only
    after the directory task has completed. [yarn rw ts-to-js] is executed
    only for a JavaScript project with install, after the install task has
    completed. [yarn rw-gen] is executed only with install, after the install
    task has completed and, for a JavaScript project, after the conversion
    has completed. Every subprocess is one of the three and runs in the new
    directory. *)
Theorem subprocesses_run_after_their_prerequisites {World} (sys : Sys World) argv w :
  let newAppDir := path_resolve sys (cwd sys) (targetDir (args argv)) in
  let install := "Running 'yarn install'... (This could take a while)" in
  let r := main sys argv w in
  (ran "yarn install" (events r) = true ->
   yarnInstall argv = true
   /\ In (TaskCompleted (directoryTitle (existsSync sys w newAppDir) newAppDir)) (events r))
  /\ (ran "yarn rw ts-to-js" (events r) = true ->
      typescript argv = false /\ yarnInstall argv = true
      /\ In (TaskCompleted install) (events r))
  /\ (ran "yarn rw-gen" (events r) = true ->
      yarnInstall argv = true
      /\ In (TaskCompleted install) (events r)
      /\ (typescript argv = false ->
          In (TaskCompleted "Convert TypeScript files to JavaScript") (events r)))
  /\ Forall (fun c => forall command dir, c = Execa command dir ->
               dir = newAppDir
               /\ In command ["yarn install"; "yarn rw ts-to-js"; "yarn rw-gen"])
       (calls (events r)).
Proof.
  intros newAppDir install r. subst newAppDir install r.
  explore_main sys argv w.
  all: split; [intros Hran; first [discriminate Hran | split; [reflexivity | in_trace]]|].
  all: split;
    [intros Hran;
     first [discriminate Hran | split; [reflexivity | split; [reflexivity | in_trace]]]|].
  all: split;
    [intros Hran;
     first [discriminate Hran
           | split; [reflexivity
                    | split; [in_trace | intros Hts; first [discriminate Hts | in_trace]]]]|].
  all: cbn; forall_list; intros command dir Hc; try discriminate Hc;
    injection Hc as <- <-; (split; [reflexivity | cbn; tauto]).
Qed.

Lemma subprocesses_run_after_their_prerequisites_witness :
  In (TaskCompleted "Running 'yarn install'... (This could take a while)")
     (events (main (Toy.sys Toy.healthy) (Toy.cli ["blog"] true false false) Toy.emptyHome)).
Proof.
  destruct (subprocesses_run_after_their_prerequisites (Toy.sys Toy.healthy)
              (Toy.cli ["blog"] true false false) Toy.emptyHome)
    as (_ & _ & Hgen & _).
  apply Hgen. reflexivity.
Defined.

(** ** The directory task *)


(** X13. An existing directory that is empty is accepted without
    [--overwrite]: no complaint is printed, and unless the version task has
    failed before, the template is copied into it, the parent directory being
    left alone. *)
Theorem empty_target_is_accepted {World} (sys : Sys World) argv w :
  targetDir (args argv) <> "" ->
  existsSync sys w (path_resolve sys (cwd sys) (targetDir (args argv))) = true ->
  readdirSync sys w (path_resolve sys (cwd sys) (targetDir (args argv))) = inr [] ->
  overwrite argv = false ->
  let newAppDir := path_resolve sys (cwd sys) (targetDir (args argv)) in
  let r := main sys argv w in
  Forall (fun ev => forall line, ev <> ConsoleError line) (events r)
  /\ Forall (fun c => forall dir, c <> EnsureDirSync dir) (calls (events r))
  /\ (In (Called (CopySync (templateDir sys) newAppDir false)) (events r)
      \/ exists e, In (TaskFailed "Checking node and yarn compatibility" e) (events r)).
Proof.
  intros Hne Hex Hrd Hov newAppDir r. subst newAppDir r.
  unfold_script. rewrite (eqb_empty_false _ Hne), Hex, Hov. cbn.
  explore.
  all: split; [forall_list; intros line; discriminate|].
  all: split; [cbn; forall_list; intros dir; discriminate|].
  all: first [left; solve [in_trace] | right; eexists; solve [in_trace]].
Qed.

Lemma empty_target_is_accepted_witness :
  let w : gmap string (list string) := {[ "/home/dev" := ["blog"]; "/home/dev/blog" := [] ]} in
  In (Called (CopySync "/opt/create-redwood-app/dist/../template" "/home/dev/blog" false))
     (events (main (Toy.sys Toy.healthy) (Toy.cli ["blog"] true false false) w)).
Proof.
  intros w.
  destruct (empty_target_is_accepted (Toy.sys Toy.healthy)
              (Toy.cli ["blog"] true false false) w) as (_ & _ & [Hcopy | [e He]]).
  - vm_compute. discriminate.
  - reflexivity.
  - reflexivity.
  - reflexivity.
  - exact Hcopy.
  - exfalso. vm_compute in He.
    repeat match type of He with
           | _ \/ _ => destruct He as [He|He]; [discriminate He|]
           end.
    exact He.
Defined.

(** ** The warning *)



(** ** A run that completes *)

(** X15. When nothing fails, on a target directory that does not exist yet
    and with install, the run completes with exit code 0 after exactly these
    calls, each made on the world the one before has left: the version
    check, the creation of the parent directory, the copy of the template,
    the renaming of [gitignore.template], [yarn install], for a JavaScript
    project [yarn rw ts-to-js], and [yarn rw-gen], the three subprocesses in
    the new directory. *)
Theorem fresh_project_is_created {World} (sys : Sys World) argv w engines w1 w2 w3 w4 w5 :
  let newAppDir := path_resolve sys (cwd sys) (targetDir (args argv)) in
  let package := path_join sys (templateDir sys) "package.json" in
  let gitignore := Rename (path_join sys newAppDir "gitignore.template")
                          (path_join sys newAppDir ".gitignore") in
  targetDir (args argv) <> "" ->
  yarnInstall argv = true ->
  existsSync sys w newAppDir = false ->
  require_engines sys w package = inr engines ->
  isSatisfied (checkNodeVersion sys w engines) = true ->
  ensureDirSync sys w (path_dirname sys newAppDir) = (w1, None) ->
  copySync sys w1 (templateDir sys) newAppDir (overwrite argv) = (w2, None) ->
  execa sys (rename sys w2 (path_join sys newAppDir "gitignore.template")
                           (path_join sys newAppDir ".gitignore"))
    "yarn install" newAppDir = (w3, None) ->
  (if typescript argv then w4 = w3
   else execa sys w3 "yarn rw ts-to-js" newAppDir = (w4, None)) ->
  execa sys w4 "yarn rw-gen" newAppDir = (w5, None) ->
  let r := main sys argv w in
  result r = Ret tt
  /\ exitCode (result r) = 0%Z
  /\ final r = w5
  /\ calls (events r)
     = [ Require package; CheckNodeVersion;
         EnsureDirSync (path_dirname sys newAppDir);
         CopySync (templateDir sys) newAppDir (overwrite argv);
         gitignore;
         Execa "yarn install" newAppDir ]
       ++ (if typescript argv then [] else [Execa "yarn rw ts-to-js" newAppDir])
       ++ [Execa "yarn rw-gen" newAppDir].
Proof.
  intros newAppDir package gitignore Hne Hy Hex Hreq Hsat Hdir Hcopy Hinstall Hconv Hgen r.
  subst newAppDir package gitignore r.
  unfold_script.
  rewrite (eqb_empty_false _ Hne), Hy, Hex. cbn.
  fold (templateDir sys). rewrite Hreq. cbn. rewrite Hsat. cbn.
  rewrite Hdir. cbn. rewrite Hcopy. cbn. rewrite Hinstall. cbn.
  destruct (typescript argv); cbn.
  - subst w4. rewrite Hgen. cbn. repeat split.
  - rewrite Hconv. cbn. rewrite Hgen. cbn. repeat split.
Qed.

Lemma fresh_project_is_created_witness :
  let r := main (Toy.sys Toy.healthy) (Toy.cli ["blog"] true false false) Toy.emptyHome in
  result r = Ret tt
  /\ final r = <["/home/dev/blog" := Toy.templateEntries]> Toy.emptyHome.
Proof.
  destruct (fresh_project_is_created (Toy.sys Toy.healthy)
              (Toy.cli ["blog"] true false false) Toy.emptyHome
              [("node", ">=14"); ("yarn", ">=1.15")]
              Toy.emptyHome
              (<["/home/dev/blog" := Toy.templateEntries]> Toy.emptyHome)
              (<["/home/dev/blog" := Toy.templateEntries]> Toy.emptyHome)
              (<["/home/dev/blog" := Toy.templateEntries]> Toy.emptyHome)
              (<["/home/dev/blog" := Toy.templateEntries]> Toy.emptyHome))
    as (Hres & _ & Hfinal & _).
  - vm_compute. discriminate.
  - reflexivity.
  - reflexivity.
  - reflexivity.
  - reflexivity.
  - reflexivity.
  - reflexivity.
  - reflexivity.
  - reflexivity.
  - reflexivity.
  - split; [exact Hres | exact Hfinal].
Defined.

End ScaffolderExtras.
